(** * MCP server template: record store, query engine and tool dispatch

    A shallow embedding of
    - [src/examples/services/InMemoryDataService.ts] (the in-memory record
      store and its query pipeline),
    - [src/utils/index.ts] (response envelopes, [safeExecute],
      [validateInput]) and
    - [src/core/MCPServer.ts] (the protocol dispatcher and [registerTool]),
    followed by the properties established about them.

    Conventions of the embedding.
    - The values are those of JSON documents, and [undefined].
    - JavaScript strings are Rocq [string]s, a character standing for a
      code unit.  [toLowerCase] is the ASCII one: it is the built-in on the
      strings that [isAscii] accepts.
    - JavaScript numbers are modelled by [Z] and printed in decimal, which
      is what [String] and [JSON.stringify] print for the integers that
      [isSafeInteger] accepts; no NaN, no fractions.
    - [String(v)] throws a [TypeError] on an object with an own property
      [toString], which for these values is never a function
      ([stringThrows]); [toString] is its result where it returns, and
      [printable] tells where it returns the modelled text.  The throw is
      followed where [formatErrorResponse] and [getInputSchema] convert a
      value; the sort comparator is the comparator of the code on values
      that are [printable] ([sortable]).
    - Arrays and objects are compared by reference in JavaScript.  The
      embedding has no heap; the array- and object-valued operands of
      [===] are taken to be distinct references (as they are for values
      decoded from separate JSON documents), so [strictEq] answers [false]
      on them.
    - A JavaScript object is an association list in property-creation
      order (the special place of integer-like keys is not modelled).  A
      property read [o[k]] is the read of an own property; it is the read
      of the code for every name that [inherited] rejects, the others being
      found on [Object.prototype] when the object has no such property.
    - [Map] is an association list in insertion order.
    - [Array.prototype.sort] is written as a stable insertion sort.
      ECMAScript fixes the result of [sort] for a consistent comparator
      only; there every sort returns the same array
      ([sortBy_unique], [sortBy_unique_on]), and the statements about the
      order of a sorted array are made under that condition.
    - Logging is left out.
    - [new Date().toISOString()] and [uuidv4()] are read from an explicit
      environment [Env] handed to each call.
    - [String.prototype.localeCompare] and the [parse] method of the zod
      schemas belong to the host and to a library; they enter through the
      classes [Locale] and [ArgsSchemas]. *)

From Stdlib Require Import ZArith List String Ascii Bool Lia Permutation.
From Stdlib Require Import DecimalString Sorted.
Import ListNotations.

Set Warnings "-register-all".

Local Open Scope list_scope.
Local Open Scope string_scope.
Local Open Scope Z_scope.

(** ** JavaScript values *)

Module JS.

Inductive Value : Type :=
| VUndefined
| VNull
| VBool (b : bool)
| VNum (n : Z)
| VStr (s : string)
| VArr (items : list Value)
| VObj (props : list (string * Value)).

(** [Record<string, unknown>] *)
Definition Object := list (string * Value).

(** ToBoolean, as used by [!x], [x || y] and [if (x)]. *)
Definition truthy (v : Value) : bool :=
  match v with
  | VUndefined | VNull => false
  | VBool b => b
  | VNum n => negb (n =? 0)
  | VStr s => negb (s =? "")%string
  | VArr _ | VObj _ => true
  end.

(** [a === b] *)
Definition strictEq (a b : Value) : bool :=
  match a, b with
  | VUndefined, VUndefined => true
  | VNull, VNull => true
  | VBool x, VBool y => Bool.eqb x y
  | VNum x, VNum y => x =? y
  | VStr x, VStr y => (x =? y)%string
  | _, _ => false
  end.

Definition isUndefined (v : Value) : bool :=
  match v with VUndefined => true | _ => false end.

(** [Number.isSafeInteger(n)] *)
Definition isSafeInteger (n : Z) : bool := Z.abs n <=? 9007199254740991.

(** Number::toString for a safe integer: its decimal digits.  (Beyond
    10^21 the built-in prints an exponent.) *)
Definition numberToString (n : Z) : string :=
  NilZero.string_of_int (Z.to_int n).

(** [String(v)], where it returns: see [stringThrows] below. *)
Fixpoint toString (v : Value) : string :=
  match v with
  | VUndefined => "undefined"
  | VNull => "null"
  | VBool true => "true"
  | VBool false => "false"
  | VNum n => numberToString n
  | VStr s => s
  | VArr items =>
      (fix join (l : list Value) : string :=
         match l with
         | [] => ""
         | x :: rest =>
             let e := match x with
                      | VUndefined | VNull => ""
                      | _ => toString x
                      end in
             match rest with
             | [] => e
             | _ :: _ => e ++ "," ++ join rest
             end
         end) items
  | VObj _ => "[object Object]"
  end.

(** *** Strings *)

Definition lowerChar (c : ascii) : ascii :=
  let n := nat_of_ascii c in
  if (65 <=? n)%nat && (n <=? 90)%nat then ascii_of_nat (n + 32) else c.

(** The strings of ASCII characters. *)
Fixpoint isAscii (s : string) : bool :=
  match s with
  | EmptyString => true
  | String c s' => (nat_of_ascii c <? 128)%nat && isAscii s'
  end.

(** [s.toLowerCase()] for an ASCII string.  (Outside ASCII the built-in
    follows the Unicode case mapping, which can change the length.) *)
Fixpoint toLowerCase (s : string) : string :=
  match s with
  | EmptyString => EmptyString
  | String c s' => String (lowerChar c) (toLowerCase s')
  end.

(** [s.includes(t)] *)
Fixpoint includes (s t : string) : bool :=
  String.prefix t s ||
  match s with
  | EmptyString => false
  | String _ s' => includes s' t
  end.

(** *** Objects *)

(** Own-property lookup. *)
Fixpoint lookup (o : Object) (k : string) : option Value :=
  match o with
  | [] => None
  | (k', v) :: o' => if (k' =? k)%string then Some v else lookup o' k
  end.

(** The names [Object.prototype] defines: an object without an own property
    of such a name inherits it. *)
Definition inherited (k : string) : bool :=
  existsb (String.eqb k)
    ["constructor"; "__defineGetter__"; "__defineSetter__"; "hasOwnProperty";
     "__lookupGetter__"; "__lookupSetter__"; "isPrototypeOf";
     "propertyIsEnumerable"; "toString"; "valueOf"; "__proto__";
     "toLocaleString"].

(** [o[k]], for a name [k] that is not [inherited]. *)
Definition getProp (o : Object) (k : string) : Value :=
  match lookup o k with
  | Some v => v
  | None => VUndefined
  end.

(** [Object.hasOwn(o, k)] *)
Definition hasOwn (o : Object) (k : string) : bool :=
  match lookup o k with
  | Some _ => true
  | None => false
  end.

(** [String(v)] throws a [TypeError].  An object is converted by its
    [toString] method; an own property of that name hides the method of
    [Object.prototype], and holds no function here, and [valueOf] answers
    no primitive.  An array joins the conversions of its elements,
    [undefined] and [null] apart. *)
Fixpoint stringThrows (v : Value) : bool :=
  match v with
  | VArr items =>
      (fix any (l : list Value) : bool :=
         match l with
         | [] => false
         | x :: rest =>
             match x with
             | VUndefined | VNull => false
             | _ => stringThrows x
             end || any rest
         end) items
  | VObj props => hasOwn props "toString"
  | _ => false
  end.

(** The numbers that [String(v)] prints are safe integers. *)
Fixpoint safeNumbers (v : Value) : bool :=
  match v with
  | VNum n => isSafeInteger n
  | VArr items =>
      (fix all (l : list Value) : bool :=
         match l with
         | [] => true
         | x :: rest => safeNumbers x && all rest
         end) items
  | _ => true
  end.

(** [String(v)] returns, and returns [toString v]. *)
Definition printable (v : Value) : bool :=
  negb (stringThrows v) && safeNumbers v.

(** [typeof v] is neither ['object'] with a reference nor an array: the
    values that [===] can find equal. *)
Definition isPrimitive (v : Value) : bool :=
  match v with
  | VArr _ | VObj _ => false
  | _ => true
  end.

(** Defining property [k]: an existing property keeps its place and takes
    the new value, a new one is appended. *)
Fixpoint setProp (o : Object) (k : string) (v : Value) : Object :=
  match o with
  | [] => [(k, v)]
  | (k', v') :: o' =>
      if (k' =? k)%string then (k, v) :: o' else (k', v') :: setProp o' k v
  end.

(** [{ ...target, ...source }]: the own properties of [source] are defined
    on [target] in order. *)
Definition spread (target source : Object) : Object :=
  fold_left (fun acc kv => setProp acc (fst kv) (snd kv)) source target.

(** [Object.entries(o)] *)
Definition entries (o : Object) : list (string * Value) := o.

(** The association list stands for an object when no key occurs twice. *)
Fixpoint wfObject (o : Object) : bool :=
  match o with
  | [] => true
  | (k, _) :: o' => negb (existsb (String.eqb k) (map fst o')) && wfObject o'
  end.

(** *** JSON.stringify *)

Definition hexDigit (n : nat) : ascii :=
  ascii_of_nat (if (n <? 10)%nat then 48 + n else 87 + n).

Definition backslash : ascii := ascii_of_nat 92.
Definition dquote : ascii := ascii_of_nat 34.

Definition escapeChar (c : ascii) : string :=
  let n := nat_of_ascii c in
  if (n =? 34)%nat then String backslash (String dquote "")
  else if (n =? 92)%nat then String backslash (String backslash "")
  else if (n =? 8)%nat then String backslash "b"
  else if (n =? 12)%nat then String backslash "f"
  else if (n =? 10)%nat then String backslash "n"
  else if (n =? 13)%nat then String backslash "r"
  else if (n =? 9)%nat then String backslash "t"
  else if (n <? 32)%nat then
    String backslash
      ("u00" ++ String (hexDigit (n / 16)) (String (hexDigit (n mod 16)) ""))
  else String c "".

Fixpoint escapeString (s : string) : string :=
  match s with
  | EmptyString => EmptyString
  | String c s' => escapeChar c ++ escapeString s'
  end.

(** QuoteJSONString *)
Definition quote (s : string) : string :=
  String dquote (escapeString s ++ String dquote "").

(** [JSON.stringify(v)]: [None] stands for the result [undefined].  Inside
    an array [undefined] is written [null]; a property whose value is
    [undefined] is left out. *)
Fixpoint stringify (v : Value) : option string :=
  match v with
  | VUndefined => None
  | VNull => Some "null"
  | VBool true => Some "true"
  | VBool false => Some "false"
  | VNum n => Some (numberToString n)
  | VStr s => Some (quote s)
  | VArr items =>
      Some ("[" ++
        (fix elems (l : list Value) : string :=
           match l with
           | [] => ""
           | x :: rest =>
               let e := match stringify x with
                        | Some t => t
                        | None => "null"
                        end in
               match rest with
               | [] => e
               | _ :: _ => e ++ "," ++ elems rest
               end
           end) items ++ "]")
  | VObj props =>
      Some ("{" ++
        (fix members (l : list (string * Value)) (first : bool) : string :=
           match l with
           | [] => ""
           | (k, x) :: rest =>
               match stringify x with
               | None => members rest first
               | Some t =>
                   (if first then "" else ",") ++ quote k ++ ":" ++ t
                     ++ members rest false
               end
           end) props true ++ "}")
  end.

End JS.

(** ** [Map]: insertion-ordered association list *)

Module JSMap.

Section Map.
Context {K V : Type} (keq : K -> K -> bool).

Definition t := list (K * V).

Definition empty : t := [].

(** [m.get(k)] *)
Fixpoint get (m : t) (k : K) : option V :=
  match m with
  | [] => None
  | (k', v) :: m' => if keq k' k then Some v else get m' k
  end.

(** [m.has(k)] *)
Definition has (m : t) (k : K) : bool :=
  match get m k with Some _ => true | None => false end.

(** [m.set(k, v)]: an existing key keeps its position. *)
Fixpoint set (m : t) (k : K) (v : V) : t :=
  match m with
  | [] => [(k, v)]
  | (k', v') :: m' =>
      if keq k' k then (k', v) :: m' else (k', v') :: set m' k v
  end.

Definition remove (m : t) (k : K) : t :=
  List.filter (fun kv => negb (keq (fst kv) k)) m.

(** [m.delete(k)]: whether the key was present, and the map without it. *)
Definition delete (m : t) (k : K) : bool * t := (has m k, remove m k).

(** [Array.from(m.values())] *)
Definition values (m : t) : list V := map snd m.

Definition keys (m : t) : list K := map fst m.
End Map.

End JSMap.

(** ** Errors and the store monad *)

(** What a [throw] carries: an [Error] object with its message, or any
    other value. *)
Inductive Exn :=
| Error (message : string)
| Thrown (v : JS.Value).

(** The [TypeError] of a conversion to a primitive that finds none. *)
Definition typeError : Exn :=
  Error "Cannot convert object to primitive value".

(** A computation over a state [S] that returns or throws. *)
Definition M (S A : Type) : Type := S -> (Exn + A) * S.

Definition ret {S A} (a : A) : M S A := fun s => (inr a, s).
Definition throw {S A} (e : Exn) : M S A := fun s => (inl e, s).
Definition bind {S A B} (c : M S A) (k : A -> M S B) : M S B :=
  fun s => match c s with
           | (inl e, s') => (inl e, s')
           | (inr a, s') => k a s'
           end.
Definition gets {S A} (f : S -> A) : M S A := fun s => (inr (f s), s).
Definition modify {S} (f : S -> S) : M S unit := fun s => (inr tt, f s).

Declare Scope store_scope.
Delimit Scope store_scope with store.
Notation "x <- c ;; k" := (bind c (fun x => k))
  (at level 61, c at next level, right associativity) : store_scope.
Notation "c ;; k" := (bind c (fun _ => k))
  (at level 61, right associativity) : store_scope.

(** ** The data service interface ([src/types/index.ts]) *)

Module Types.

Record Resource := {
  uri : string;
  name : string;
  description : option string
}.

(** The two readings a call takes from its surroundings. *)
Record Env := {
  now : string;   (* new Date().toISOString() *)
  uuid : string   (* uuidv4() *)
}.

(** [direction === 'asc'] or not: [desc] stands for every other value. *)
Inductive Direction := asc | desc.

(** An element of [query.sort]; [direction] is [None] when the property is
    [undefined], which the destructuring replaces by ['asc']. *)
Record SortItem := {
  field : string;
  direction : option Direction
}.

(** The query object, read at the types [queryResource] tests for and casts
    to.  A member is [None] when the test the code makes on it fails:
    [searchTerm] is not a string, [fields] or [sort] is not an array,
    [filter] is falsy or not an object, [maxRecords] is not a number. *)
Record Query := {
  searchTerm : option string;
  fields : option (list string);
  filter : option JS.Object;
  sort : option (list SortItem);
  maxRecords : option Z
}.

Definition emptyQuery : Query :=
  {| searchTerm := None; fields := None; filter := None; sort := None;
     maxRecords := None |}.

Class IDataService (S : Type) := {
  listResources : M S (list Resource);
  getResource : string -> M S Resource;
  queryResource : string -> Query -> M S (list JS.Object);
  createRecord : Env -> string -> JS.Object -> M S JS.Object;
  updateRecord : Env -> string -> string -> JS.Object -> M S JS.Object;
  deleteRecord : string -> string -> M S bool
}.

End Types.
Import Types.

(** [String.prototype.localeCompare]: negative, zero or positive. *)
Class Locale := {
  localeCompare : string -> string -> Z
}.

(** ** The query pipeline of [queryResource] *)

Module QueryEngine.
Import JS.

(** [Array.prototype.sort(cmp)], written as a stable insertion sort: [x],
    which precedes the elements of [l] in the array, moves right only past
    elements it is strictly greater than.  For a comparator that is
    consistent on the array this is the array every implementation
    returns; for another comparator the order is the implementation's
    own. *)
Section Sort.
Context {A : Type} (cmp : A -> A -> Z).

Fixpoint insert (x : A) (l : list A) : list A :=
  match l with
  | [] => [x]
  | y :: l' => if cmp x y >? 0 then y :: insert x l' else x :: y :: l'
  end.

Definition sortBy (l : list A) : list A := fold_right insert [] l.

(** The comparator does not put [a] after [b]. *)
Definition inOrder (a b : A) : Prop := cmp a b <= 0.

(** The comparator answers zero. *)
Definition tied (a b : A) : bool := cmp a b =? 0.

End Sort.

(** The predicate given to [some] in the search stage. *)
Definition valueMatches (term : string) (value : Value) : bool :=
  match value with
  | VStr s => includes (toLowerCase s) term
  | VNum _ | VBool _ => includes (toLowerCase (toString value)) term
  | _ => false
  end.

Definition fieldAllowed (fs : option (list string)) (key : string) : bool :=
  match fs with
  | None => true
  | Some l => existsb (String.eqb key) l
  end.

Definition recordMatches (term : string) (fs : option (list string))
    (record : Object) : bool :=
  existsb (fun kv => valueMatches term (snd kv))
    (List.filter (fun kv => fieldAllowed fs (fst kv)) (entries record)).

Definition searchStage (q : Query) (records : list Object) : list Object :=
  match searchTerm q with
  | Some s =>
      if truthy (VStr s)
      then List.filter (recordMatches (toLowerCase s) (fields q)) records
      else records
  | None => records
  end.

Definition passesFilter (f : Object) (record : Object) : bool :=
  forallb (fun kv => strictEq (getProp record (fst kv)) (snd kv)) (entries f).

Definition filterStage (q : Query) (records : list Object) : list Object :=
  match filter q with
  | Some f => List.filter (passesFilter f) records
  | None => records
  end.

Definition directionOf (s : SortItem) : Direction :=
  match direction s with
  | Some d => d
  | None => asc
  end.


(** The number the comparator returns, where it returns. *)
Fixpoint compareRecords `{Locale} (specs : list SortItem) (a b : Object) : Z :=
  match specs with
  | [] => 0
  | sortItem :: rest =>
      let aValue := getProp a (field sortItem) in
      let bValue := getProp b (field sortItem) in
      if strictEq aValue bValue then compareRecords rest a b
      else if isUndefined aValue then
        match directionOf sortItem with asc => -1 | desc => 1 end
      else if isUndefined bValue then
        match directionOf sortItem with asc => 1 | desc => -1 end
      else
        let comparison := localeCompare (toString aValue) (toString bValue) in
        match directionOf sortItem with
        | asc => comparison
        | desc => - comparison
        end
  end.

(** [records.sort(...)] when [query.sort] is a non-empty array, for calls
    of the comparator that return. *)
Definition sortStage `{Locale} (q : Query) (records : list Object)
  : list Object :=
  match sort q with
  | Some (s :: specs) => sortBy (compareRecords (s :: specs)) records
  | _ => records
  end.

Definition limitStage (q : Query) (records : list Object) : list Object :=
  match maxRecords q with
  | Some n => if n >? 0 then firstn (Z.to_nat n) records else records
  | None => records
  end.

(** Lines 73-126 of [queryResource], on the array read from the store. *)
Definition execute `{Locale} (records : list Object) (q : Query)
  : list Object :=
  limitStage q (sortStage q (filterStage q (searchStage q records))).

(** The query with its [maxRecords] member left out. *)
Definition withoutLimit (q : Query) : Query :=
  {| searchTerm := searchTerm q; fields := fields q; filter := filter q;
     sort := sort q; maxRecords := None |}.

(** [typeof value] is ['string'], ['number'] or ['boolean']. *)
Definition isScalar (value : Value) : bool :=
  match value with
  | VStr _ | VNum _ | VBool _ => true
  | _ => false
  end.

(** The strings of the record are ASCII and its numbers safe integers: the
    search stage sees their text as the code does. *)
Definition searchable (record : Object) : bool :=
  forallb (fun kv => match snd kv with
                     | VStr s => isAscii s
                     | VNum n => isSafeInteger n
                     | _ => true
                     end) (entries record).

(** The filter names no property of [Object.prototype] and holds
    primitives. *)
Definition plainFilter (f : Object) : bool :=
  forallb (fun kv => negb (inherited (fst kv)) && isPrimitive (snd kv))
          (entries f).



End QueryEngine.

(** ** [InMemoryDataService] *)

Module InMemoryDataService.
Import JS.
Local Open Scope store_scope.

(** The record collection of one resource, keyed by record id.  The key is
    whatever [data.id as string || uuidv4()] evaluates to; [Map] compares
    keys with SameValueZero, which is [strictEq] on the values modelled. *)
Definition Records := @JSMap.t Value Object.

Record State := {
  resourcePrefix : string;
  resources : @JSMap.t string Resource;
  data : @JSMap.t string Records
}.

(** [new InMemoryDataService(resourcePrefix)] *)
Definition create (prefix : string) : State :=
  {| resourcePrefix := prefix; resources := JSMap.empty; data := JSMap.empty |}.

Definition setResources (f : @JSMap.t string Resource -> @JSMap.t string Resource)
    (st : State) : State :=
  {| resourcePrefix := resourcePrefix st; resources := f (resources st);
     data := data st |}.

Definition setData (f : @JSMap.t string Records -> @JSMap.t string Records)
    (st : State) : State :=
  {| resourcePrefix := resourcePrefix st; resources := resources st;
     data := f (data st) |}.

Definition isLowerAlnum (c : ascii) : bool :=
  let n := nat_of_ascii c in
  ((97 <=? n)%nat && (n <=? 122)%nat) || ((48 <=? n)%nat && (n <=? 57)%nat).

(** [s.replace(/[^a-z0-9]/g, '-')] *)
Fixpoint replaceNonAlnum (s : string) : string :=
  match s with
  | EmptyString => EmptyString
  | String c s' =>
      String (if isLowerAlnum c then c else "-"%char) (replaceNonAlnum s')
  end.

Definition resourceId (name : string) : string :=
  replaceNonAlnum (toLowerCase name).

Definition registerResource (name : string) (description : option string)
  : M State Resource :=
  prefix <- gets resourcePrefix ;;
  let id := resourceId name in
  let uri := prefix ++ id in
  let resource := {| uri := uri; name := name; description := description |} in
  modify (setResources (fun m => JSMap.set String.eqb m uri resource)) ;;
  modify (setData (fun m => JSMap.set String.eqb m uri JSMap.empty)) ;;
  ret resource.

Definition validateResource (uri : string) : M State unit :=
  rs <- gets resources ;;
  if negb (JSMap.has String.eqb rs uri)
  then throw (Error ("Resource not found: " ++ uri))
  else ret tt.

(** [this.data.get(uri)!]: the callers go on to use the result as a [Map],
    which fails with a [TypeError] when the entry is missing. *)
Definition resourceData (uri : string) : M State Records :=
  d <- gets data ;;
  match JSMap.get String.eqb d uri with
  | Some rd => ret rd
  | None => throw (Error "Cannot read properties of undefined")
  end.

(** A [set] or [delete] on the inner map is seen through [this.data]. *)
Definition putResourceData (uri : string) (rd : Records) : M State unit :=
  modify (setData (fun m => JSMap.set String.eqb m uri rd)).

Definition listResources : M State (list Resource) :=
  rs <- gets resources ;;
  ret (JSMap.values rs).

Definition getResource (uri : string) : M State Resource :=
  rs <- gets resources ;;
  match JSMap.get String.eqb rs uri with
  | None => throw (Error ("Resource not found: " ++ uri))
  | Some resource => ret resource
  end.

(** The sort stage is the one of [QueryEngine.execute]: the calls of
    [String] in the comparator are taken to return
    ([QueryEngine.sortReturns]). *)
Definition queryResource `{Locale} (uri : string) (query : Query)
  : M State (list Object) :=
  validateResource uri ;;
  rd <- resourceData uri ;;
  ret (QueryEngine.execute (JSMap.values rd) query).

(** [data.id as string || uuidv4()] *)
Definition recordId (env : Env) (d : Object) : Value :=
  if truthy (getProp d "id") then getProp d "id" else VStr (uuid env).

(** [{ id, ...d, createdAt: timestamp, updatedAt: timestamp }] *)
Definition stamped (id : Value) (d : Object) (timestamp : string) : Object :=
  setProp (setProp (spread [("id", id)] d) "createdAt" (VStr timestamp))
          "updatedAt" (VStr timestamp).

Definition createRecord (env : Env) (uri : string) (d : Object)
  : M State Object :=
  validateResource uri ;;
  let id := recordId env d in
  let timestamp := now env in
  let record := stamped id d timestamp in
  rd <- resourceData uri ;;
  putResourceData uri (JSMap.set strictEq rd id record) ;;
  ret record.

Definition updateRecord (env : Env) (uri : string) (id : string) (d : Object)
  : M State Object :=
  validateResource uri ;;
  rd <- resourceData uri ;;
  match JSMap.get strictEq rd (VStr id) with
  | None => throw (Error ("Record not found: " ++ id))
  | Some existingRecord =>
      let updatedRecord :=
        setProp (setProp (spread (spread [] existingRecord) d) "id" (VStr id))
                "updatedAt" (VStr (now env)) in
      putResourceData uri (JSMap.set strictEq rd (VStr id) updatedRecord) ;;
      ret updatedRecord
  end.

Definition deleteRecord (uri : string) (id : string) : M State bool :=
  validateResource uri ;;
  rd <- resourceData uri ;;
  if negb (JSMap.has strictEq rd (VStr id))
  then throw (Error ("Record not found: " ++ id))
  else
    let (removed, rd') := JSMap.delete strictEq rd (VStr id) in
    putResourceData uri rd' ;;
    ret removed.

(** [seedData]: every record is stamped with one timestamp; [uuids] are the
    successive results of [uuidv4()]. *)
Fixpoint seedLoop (timestamp : string) (uuids : nat -> string) (n : nat)
    (records : list Object) (rd : Records) : Records :=
  match records with
  | [] => rd
  | record :: rest =>
      let id := recordId {| now := timestamp; uuid := uuids n |} record in
      seedLoop timestamp uuids (S n) rest
        (JSMap.set strictEq rd id (stamped id record timestamp))
  end.

Definition seedData (timestamp : string) (uuids : nat -> string)
    (uri : string) (records : list Object) : M State unit :=
  validateResource uri ;;
  rd <- resourceData uri ;;
  putResourceData uri (seedLoop timestamp uuids 0 records rd).

(** [uri] is registered in [st] and [rd] is its record collection. *)
Definition registered (st : State) (uri : string) (rd : Records) : Prop :=
  JSMap.has String.eqb (resources st) uri = true /\
  JSMap.get String.eqb (data st) uri = Some rd.

(** The record collection of [uri], empty when there is none. *)
Definition collection (st : State) (uri : string) : Records :=
  match @JSMap.get string Records String.eqb (data st) uri with
  | Some rd => rd
  | None => JSMap.empty
  end.

(** Every registered URI has its record collection: the two maps of the
    service are set and read together. *)
Definition consistent (st : State) : bool :=
  forallb (fun u => JSMap.has String.eqb (data st) u)
          (JSMap.keys (resources st)).

(** [createRecord] for each record in turn, all at one timestamp; [uuids]
    are the successive results of [uuidv4()], as in [seedLoop]. *)
Fixpoint createEach (timestamp : string) (uuids : nat -> string) (n : nat)
    (uri : string) (records : list Object) : M State unit :=
  match records with
  | [] => ret tt
  | record :: rest =>
      createRecord {| now := timestamp; uuid := uuids n |} uri record ;;
      createEach timestamp uuids (S n) uri rest
  end.

(** The characters a derived resource identifier is made of. *)
Definition isIdChar (c : ascii) : bool :=
  isLowerAlnum c || (c =? "-")%char.

Fixpoint allChars (p : ascii -> bool) (s : string) : bool :=
  match s with
  | EmptyString => true
  | String c s' => p c && allChars p s'
  end.

Ltac run :=
  unfold registerResource, updateRecord, deleteRecord, createRecord,
    queryResource, validateResource, resourceData, putResourceData,
    bind, gets, ret, throw, modify; simpl.

Ltac exec :=
  unfold registerResource, updateRecord, deleteRecord, createRecord,
    queryResource, getResource, listResources, seedData,
    validateResource, resourceData, putResourceData,
    bind, gets, ret, throw, modify; simpl.

#[export] Instance dataService `{Locale} : IDataService State := {|
  Types.listResources := listResources;
  Types.getResource := getResource;
  Types.queryResource := queryResource;
  Types.createRecord := createRecord;
  Types.updateRecord := updateRecord;
  Types.deleteRecord := deleteRecord
|}.

End InMemoryDataService.

(** ** Utilities ([src/utils/index.ts]) *)

Module Utils.
Import JS.
Local Open Scope store_scope.

Record Content := {
  type : string;
  mimeType : string;
  text : option string
}.

Record CallToolResult := {
  content : list Content;
  isError : bool
}.

Definition formatToolResponse (d : Value) (isError : bool) : CallToolResult :=
  {| content := [ {| type := "text"; mimeType := "application/json";
                     text := stringify d |} ];
     isError := isError |}.

(** [String(error)] throws: an [Error] object is not converted, its
    [message] is read. *)
Definition throwsOnString (error : Exn) : bool :=
  match error with
  | Error _ => false
  | Thrown v => stringThrows v
  end.

(** The message is read, or [String(error)] returns the modelled text. *)
Definition printableExn (error : Exn) : bool :=
  match error with
  | Error _ => true
  | Thrown v => printable v
  end.

(** [error instanceof Error ? error.message : String(error)], where
    [String] returns. *)
Definition errorMessage (error : Exn) : string :=
  match error with
  | Error message => message
  | Thrown v => toString v
  end.

(** What [formatErrorResponse] returns when [String(error)] returns. *)
Definition formatErrorResponse (toolName : string) (error : Exn)
  : CallToolResult :=
  formatToolResponse
    (VStr ("Error in tool " ++ toolName ++ ": " ++ errorMessage error)) true.

(** A call [formatErrorResponse(toolName, error)] on a caught value: the
    [TypeError] of [String(error)] leaves the function. *)
Definition callFormatErrorResponse {S} (toolName : string) (error : Exn)
  : M S CallToolResult :=
  if throwsOnString error then throw typeError
  else ret (formatErrorResponse toolName error).

(** [try { ... } catch (error) { ... }] *)
Definition tryCatch {S A} (body : M S A) (handler : Exn -> M S A) : M S A :=
  fun s => match body s with
           | (inl e, s') => handler e s'
           | (inr a, s') => (inr a, s')
           end.

Definition safeExecute {S} (toolName : string) (fn : M S Value)
  : M S CallToolResult :=
  tryCatch (result <- fn ;; ret (formatToolResponse result false))
           (fun error => callFormatErrorResponse toolName error).

(** One entry of [ZodError.errors]; a numeric path element is held as its
    decimal text. *)
Record ZodIssue := {
  path : list string;
  message : string
}.

(** A zod schema: what [schema.parse] answers, and what [zodToJsonSchema]
    makes of the schema. *)
Record ZodType (T : Type) := {
  parse : Value -> list ZodIssue + T;
  jsonSchema : Object
}.
Arguments parse {T}.
Arguments jsonSchema {T}.

(** [xs.join(sep)] *)
Fixpoint join (sep : string) (xs : list string) : string :=
  match xs with
  | [] => ""
  | [x] => x
  | x :: rest => x ++ sep ++ join sep rest
  end.

Definition formatIssue (e : ZodIssue) : string :=
  join "." (path e) ++ ": " ++ message e.

(** The error [validateInput] throws for the issues zod reports. *)
Definition invalidInput (issues : list ZodIssue) : Exn :=
  Error ("Invalid input: " ++ join "; " (map formatIssue issues)).

Definition validateInput {S T} (schema : ZodType T) (d : Value) : M S T :=
  match parse schema d with
  | inr v => ret v
  | inl errors =>
      throw (Error ("Invalid input: " ++ join "; " (map formatIssue errors)))
  end.

Definition getInputSchema {T} (schema : ZodType T) : Exn + Object :=
  let js := jsonSchema schema in
  match lookup js "type" with
  | Some (VStr "object") => inr (setProp (spread [] js) "type" (VStr "object"))
  | Some other =>
      if stringThrows other then inl typeError
      else
        inl (Error ("Invalid input schema to convert: expected an object but got "
                    ++ toString other))
  | None =>
      inl (Error "Invalid input schema to convert: expected an object but got no type")
  end.

(** The object [registerResource] builds, as a value: [description] is a
    property even when it is [undefined]. *)
Definition resourceValue (r : Resource) : Value :=
  VObj [("uri", VStr (uri r)); ("name", VStr (name r));
        ("description", match description r with
                        | Some d => VStr d
                        | None => VUndefined
                        end)].

Record ResourceContent := {
  rc_uri : string;
  rc_mimeType : string;
  rc_text : option string
}.

Definition formatResourceContent (uri : string) (d : Value) : ResourceContent :=
  {| rc_uri := uri; rc_mimeType := "application/json"; rc_text := stringify d |}.

End Utils.

(** ** Tool argument types and schemas ([src/types/index.ts]) *)

Module Args.

Record ListRecordsArgs := {
  lr_resourceUri : string;
  lr_maxRecords : option Z;
  lr_filter : option JS.Object;
  lr_sort : option (list SortItem)
}.

Record SearchRecordsArgs := {
  sr_resourceUri : string;
  sr_searchTerm : string;
  sr_fields : option (list string);
  sr_maxRecords : option Z
}.

Record GetRecordArgs := { gr_resourceUri : string; gr_recordId : string }.

Record CreateRecordArgs := { cr_resourceUri : string; cr_data : JS.Object }.

Record UpdateRecordArgs := {
  ur_resourceUri : string;
  ur_recordId : string;
  ur_data : JS.Object
}.

Record DeleteRecordArgs := { dr_resourceUri : string; dr_recordId : string }.

(** The six schema constants; zod decides what each one parses. *)
Class ArgsSchemas := {
  ListRecordsArgsSchema : Utils.ZodType ListRecordsArgs;
  GetRecordArgsSchema : Utils.ZodType GetRecordArgs;
  CreateRecordArgsSchema : Utils.ZodType CreateRecordArgs;
  UpdateRecordArgsSchema : Utils.ZodType UpdateRecordArgs;
  DeleteRecordArgsSchema : Utils.ZodType DeleteRecordArgs;
  SearchRecordsArgsSchema : Utils.ZodType SearchRecordsArgs
}.

End Args.

(** ** [MCPServer] ([src/core/MCPServer.ts]) *)

Module MCPServer.
Import JS Utils Args.
Local Open Scope store_scope.

(** [request.params] of a call-tool request. *)
Record CallToolRequest := {
  toolName : string;
  arguments : Value
}.

Record Tool := {
  tool_name : string;
  tool_description : string;
  inputSchema : Object
}.

Section Server.
Context {S : Type} `{IDataService S} `{ArgsSchemas}.

Definition ListHandler : Type := Exn + list Tool.
Definition CallHandler : Type :=
  Env -> CallToolRequest -> M S CallToolResult.

(** The members of the object that [registerTool] reassigns, and the two
    functions that [initializeHandlers] handed to the protocol server
    with [bind] when the object was constructed. *)
Record t := {
  handleListTools : ListHandler;
  handleCallTool : CallHandler;
  boundListTools : ListHandler;
  boundCallTool : CallHandler
}.

(** An entry of the list-resources result. *)
Record ResourceEntry := {
  re_uri : string;
  re_mimeType : string;
  re_name : string
}.

Definition handleListResources : M S (list ResourceEntry) :=
  tryCatch
    (resources <- listResources ;;
     ret (map (fun resource =>
                 {| re_uri := uri resource; re_mimeType := "application/json";
                    re_name := name resource |}) resources))
    (fun _ => ret []).

(** The [contents] of the read-resource result. *)
Definition handleReadResource (uri : string) : M S (list ResourceContent) :=
  tryCatch
    (resource <- getResource uri ;;
     ret [formatResourceContent uri (resourceValue resource)])
    (fun _ => throw (Error ("Resource not found: " ++ uri))).

Definition describe {T} (n d : string) (schema : ZodType T) (rest : ListHandler)
  : ListHandler :=
  match getInputSchema schema, rest with
  | inl e, _ => inl e
  | inr js, inr tools =>
      inr ({| tool_name := n; tool_description := d; inputSchema := js |}
             :: tools)
  | inr _, inl e => inl e
  end.

(** The method [handleListTools] of the class. *)
Definition builtinListTools : ListHandler :=
  describe "list_records" "List records from a resource"
    ListRecordsArgsSchema
  (describe "search_records" "Search for records containing specific text"
    SearchRecordsArgsSchema
  (describe "get_record" "Get a specific record by ID"
    GetRecordArgsSchema
  (describe "create_record" "Create a new record in a resource"
    CreateRecordArgsSchema
  (describe "update_record" "Update a record in a resource"
    UpdateRecordArgsSchema
  (describe "delete_record" "Delete a record from a resource"
    DeleteRecordArgsSchema
  (inr [])))))).

Definition recordsValue (records : list Object) : Value :=
  VArr (map VObj records).

(** The method [handleCallTool] of the class. *)
Definition builtinCallTool : CallHandler := fun env request =>
  let toolName := toolName request in
  tryCatch
    (if (toolName =? "list_records")%string then
       safeExecute toolName
         (args <- validateInput ListRecordsArgsSchema (arguments request) ;;
          records <- queryResource (lr_resourceUri args)
            {| searchTerm := None; fields := None;
               filter := lr_filter args; sort := lr_sort args;
               maxRecords := lr_maxRecords args |} ;;
          ret (recordsValue records))
     else if (toolName =? "search_records")%string then
       safeExecute toolName
         (args <- validateInput SearchRecordsArgsSchema (arguments request) ;;
          records <- queryResource (sr_resourceUri args)
            {| searchTerm := Some (sr_searchTerm args);
               fields := sr_fields args;
               filter := None; sort := None;
               maxRecords := sr_maxRecords args |} ;;
          ret (recordsValue records))
     else if (toolName =? "get_record")%string then
       safeExecute toolName
         (args <- validateInput GetRecordArgsSchema (arguments request) ;;
          resource <- getResource (gr_resourceUri args) ;;
          ret (VObj [("id", VStr (gr_recordId args));
                     ("resource", VStr (name resource))]))
     else if (toolName =? "create_record")%string then
       safeExecute toolName
         (args <- validateInput CreateRecordArgsSchema (arguments request) ;;
          record <- createRecord env (cr_resourceUri args) (cr_data args) ;;
          ret (VObj record))
     else if (toolName =? "update_record")%string then
       safeExecute toolName
         (args <- validateInput UpdateRecordArgsSchema (arguments request) ;;
          record <- updateRecord env (ur_resourceUri args) (ur_recordId args)
                      (ur_data args) ;;
          ret (VObj record))
     else if (toolName =? "delete_record")%string then
       safeExecute toolName
         (args <- validateInput DeleteRecordArgsSchema (arguments request) ;;
          success <- deleteRecord (dr_resourceUri args) (dr_recordId args) ;;
          ret (VObj [("success", VBool success);
                     ("id", VStr (dr_recordId args))]))
     else
       ret (formatErrorResponse toolName
              (Thrown (VStr ("Unknown tool: " ++ toolName)))))
    (fun error => callFormatErrorResponse toolName error).

(** The constructor: [initializeHandlers] binds the methods of the class. *)
Definition create : t :=
  {| handleListTools := builtinListTools;
     handleCallTool := builtinCallTool;
     boundListTools := builtinListTools;
     boundCallTool := builtinCallTool |}.

(** A handler given to [registerTool]: an asynchronous function of the
    parsed arguments that may use the data service. *)
Definition ToolHandler : Type := Env -> Value -> M S Value.

Definition registerTool (server : t) (toolName' : string)
    (description : string) (inputSchema : ZodType Value)
    (handler : ToolHandler) : t :=
  let existingHandler := handleListTools server in
  let existingCallHandler := handleCallTool server in
  {| handleListTools :=
       match existingHandler with
       | inl e => inl e
       | inr tools =>
           match getInputSchema inputSchema with
           | inl e => inl e
           | inr js =>
               inr (tools ++
                    [ {| tool_name := toolName'; tool_description := description;
                         inputSchema := js |} ])%list
           end
       end;
     handleCallTool := fun env request =>
       if (toolName request =? toolName')%string then
         safeExecute toolName'
           (args <- validateInput inputSchema (arguments request) ;;
            handler env args)
       else existingCallHandler env request;
     boundListTools := boundListTools server;
     boundCallTool := boundCallTool server |}.

(** One call of [registerTool]. *)
Record Registration := {
  reg_name : string;
  reg_description : string;
  reg_schema : ZodType Value;
  reg_handler : ToolHandler
}.

Definition register (server : t) (r : Registration) : t :=
  registerTool server (reg_name r) (reg_description r) (reg_schema r)
    (reg_handler r).

(** The entry a registration adds to the tool listing. *)
Definition listed (r : Registration) : Tool :=
  {| tool_name := reg_name r; tool_description := reg_description r;
     inputSchema := match getInputSchema (reg_schema r) with
                    | inr js => js
                    | inl _ => []
                    end |}.

(** The server after the registrations [rs], made in list order. *)
Definition registerAll (server : t) (rs : list Registration) : t :=
  fold_left register rs server.

End Server.

Arguments t S : clear implicits.
Arguments Registration S : clear implicits.

End MCPServer.

(** ** The claims of the specification, in its own words *)

Module Spec.
Import JS.
Local Open Scope store_scope.

(** "lowercasing the name and replacing every non-alphanumeric run with a
    single separator": [inRun] tells whether the previous character was
    already part of a run. *)
Fixpoint collapseRuns (inRun : bool) (s : string) : string :=
  match s with
  | EmptyString => EmptyString
  | String c s' =>
      if InMemoryDataService.isLowerAlnum c
      then String c (collapseRuns false s')
      else if inRun then collapseRuns true s'
      else String "-"%char (collapseRuns true s')
  end.

Definition uriByRuns (prefix name : string) : string :=
  prefix ++ collapseRuns false (toLowerCase name).

(** One separator per character instead. *)
Fixpoint mapString (f : ascii -> ascii) (s : string) : string :=
  match s with
  | EmptyString => EmptyString
  | String c s' => String (f c) (mapString f s')
  end.

(** A character of the lowercased name, or the separator in its place. *)
Definition separate (c : ascii) : ascii :=
  if InMemoryDataService.isLowerAlnum c then c else "-"%char.




Definition builtinNames : list string :=
  ["list_records"; "search_records"; "get_record"; "create_record";
   "update_record"; "delete_record"].

Definition isBuiltin (n : string) : bool := existsb (String.eqb n) builtinNames.

Section Dispatch.
Context {S : Type} `{IDataService S} `{Args.ArgsSchemas}.

(** What invoking a registered tool does. *)
Definition runRegistered (r : MCPServer.Registration S) (env : Env)
    (request : MCPServer.CallToolRequest) : M S Utils.CallToolResult :=
  Utils.safeExecute (MCPServer.reg_name r)
    (args <- Utils.validateInput (MCPServer.reg_schema r)
               (MCPServer.arguments request) ;;
     MCPServer.reg_handler r env args).

Definition named (n : string) (r : MCPServer.Registration S) : bool :=
  (MCPServer.reg_name r =? n)%string.

(** "earlier registrations, including built-ins, take precedence over
    later ones". *)
Definition dispatchEarliestFirst (rs : list (MCPServer.Registration S))
  : MCPServer.CallHandler := fun env request =>
  let n := MCPServer.toolName request in
  if isBuiltin n then MCPServer.builtinCallTool env request
  else match find (named n) rs with
       | Some r => runRegistered r env request
       | None => MCPServer.builtinCallTool env request
       end.

(** The latest registration under the name, before the built-ins. *)
Definition dispatchLatestFirst (rs : list (MCPServer.Registration S))
  : MCPServer.CallHandler := fun env request =>
  let n := MCPServer.toolName request in
  match find (named n) (rev rs) with
  | Some r => runRegistered r env request
  | None => MCPServer.builtinCallTool env request
  end.
End Dispatch.

End Spec.

(** ** Concrete surroundings used to run the embedding *)

(** A collation that orders strings by character code. *)
Module Host.

Definition compareCodes (x y : string) : Z :=
  match String.compare x y with
  | Lt => -1
  | Eq => 0
  | Gt => 1
  end.

Definition codeOrder : Locale := {| localeCompare := compareCodes |}.

Definition env0 : Env :=
  {| now := "2024-01-01T00:00:00.000Z";
     uuid := "9b2c7d52-8f0c-4c55-9c0e-2f6d1c3a4b5e" |}.

Definition env1 : Env :=
  {| now := "2024-06-30T12:00:00.000Z";
     uuid := "1f0e9d8c-7b6a-4f5e-8d3c-2b1a0f9e8d7c" |}.

End Host.

(** Decoders for the six argument schemas, following their zod declarations:
    an object is required, each field is checked against its declared type,
    unknown keys are dropped, and every violation is reported. *)
Module Zod.
Import JS Utils Args.

Definition Parser (T : Type) : Type := list string -> Value -> list ZodIssue + T.

Definition typeName (v : Value) : string :=
  match v with
  | VUndefined => "undefined"
  | VNull => "null"
  | VBool _ => "boolean"
  | VNum _ => "number"
  | VStr _ => "string"
  | VArr _ => "array"
  | VObj _ => "object"
  end.

Definition invalidType {T} (what : string) (p : list string) (v : Value)
  : list ZodIssue + T :=
  inl [ {| path := p;
           message := if isUndefined v then "Required"
                      else "Expected " ++ what ++ ", received " ++ typeName v |} ].

Definition zString : Parser string := fun p v =>
  match v with VStr s => inr s | _ => invalidType "string" p v end.

Definition zNumber : Parser Z := fun p v =>
  match v with VNum n => inr n | _ => invalidType "number" p v end.

Definition zRecord : Parser Object := fun p v =>
  match v with VObj o => inr o | _ => invalidType "object" p v end.

Definition zOptional {T} (inner : Parser T) : Parser (option T) := fun p v =>
  match v with
  | VUndefined => inr None
  | _ => match inner p v with
         | inr x => inr (Some x)
         | inl e => inl e
         end
  end.

(** Both results, or the issues of both. *)
Definition both {A B} (a : list ZodIssue + A) (b : list ZodIssue + B)
  : list ZodIssue + (A * B) :=
  match a, b with
  | inr x, inr y => inr (x, y)
  | inl e, inr _ => inl e
  | inr _, inl e => inl e
  | inl e1, inl e2 => inl (e1 ++ e2)%list
  end.

Definition mapResult {A B} (f : A -> B) (a : list ZodIssue + A)
  : list ZodIssue + B :=
  match a with
  | inr x => inr (f x)
  | inl e => inl e
  end.

Fixpoint zItems {T} (inner : Parser T) (p : list string) (i : nat)
    (items : list Value) : list ZodIssue + list T :=
  match items with
  | [] => inr []
  | x :: rest =>
      mapResult (fun xy => fst xy :: snd xy)
        (both (inner (p ++ [numberToString (Z.of_nat i)])%list x)
              (zItems inner p (S i) rest))
  end.

Definition zArray {T} (inner : Parser T) : Parser (list T) := fun p v =>
  match v with
  | VArr items => zItems inner p 0%nat items
  | _ => invalidType "array" p v
  end.

Definition zObject {T} (fieldsOf : list string -> Object -> list ZodIssue + T)
  : Parser T := fun p v =>
  match v with
  | VObj o => fieldsOf p o
  | _ => invalidType "object" p v
  end.

Definition at_ {T} (inner : Parser T) (k : string) (p : list string)
    (o : Object) : list ZodIssue + T :=
  inner (p ++ [k])%list (getProp o k).

Definition zDirection : Parser Direction := fun p v =>
  match v with
  | VStr "asc" => inr asc
  | VStr "desc" => inr desc
  | VStr s =>
      inl [ {| path := p;
               message := "Invalid enum value. Expected 'asc' | 'desc', received '"
                          ++ s ++ "'" |} ]
  | _ => invalidType "'asc' | 'desc'" p v
  end.

Definition zSortItem : Parser SortItem :=
  zObject (fun p o =>
    mapResult (fun fd => {| field := fst fd; direction := snd fd |})
      (both (at_ zString "field" p o)
            (at_ (zOptional zDirection) "direction" p o))).

Definition schemaOf {T} (parser : Parser T) : ZodType T :=
  {| parse := parser []; jsonSchema := [("type", VStr "object")] |}.

Definition listRecordsArgs : Parser ListRecordsArgs :=
  zObject (fun p o =>
    mapResult
      (fun x => {| lr_resourceUri := fst (fst (fst x));
                   lr_maxRecords := snd (fst (fst x));
                   lr_filter := snd (fst x);
                   lr_sort := snd x |})
      (both (both (both (at_ zString "resourceUri" p o)
                        (at_ (zOptional zNumber) "maxRecords" p o))
                  (at_ (zOptional zRecord) "filter" p o))
            (at_ (zOptional (zArray zSortItem)) "sort" p o))).

Definition searchRecordsArgs : Parser SearchRecordsArgs :=
  zObject (fun p o =>
    mapResult
      (fun x => {| sr_resourceUri := fst (fst (fst x));
                   sr_searchTerm := snd (fst (fst x));
                   sr_fields := snd (fst x);
                   sr_maxRecords := snd x |})
      (both (both (both (at_ zString "resourceUri" p o)
                        (at_ zString "searchTerm" p o))
                  (at_ (zOptional (zArray zString)) "fields" p o))
            (at_ (zOptional zNumber) "maxRecords" p o))).

Definition getRecordArgs : Parser GetRecordArgs :=
  zObject (fun p o =>
    mapResult (fun x => {| gr_resourceUri := fst x; gr_recordId := snd x |})
      (both (at_ zString "resourceUri" p o) (at_ zString "recordId" p o))).

Definition createRecordArgs : Parser CreateRecordArgs :=
  zObject (fun p o =>
    mapResult (fun x => {| cr_resourceUri := fst x; cr_data := snd x |})
      (both (at_ zString "resourceUri" p o) (at_ zRecord "data" p o))).

Definition updateRecordArgs : Parser UpdateRecordArgs :=
  zObject (fun p o =>
    mapResult
      (fun x => {| ur_resourceUri := fst (fst x); ur_recordId := snd (fst x);
                   ur_data := snd x |})
      (both (both (at_ zString "resourceUri" p o) (at_ zString "recordId" p o))
            (at_ zRecord "data" p o))).

Definition deleteRecordArgs : Parser DeleteRecordArgs :=
  zObject (fun p o =>
    mapResult (fun x => {| dr_resourceUri := fst x; dr_recordId := snd x |})
      (both (at_ zString "resourceUri" p o) (at_ zString "recordId" p o))).

Definition schemas : ArgsSchemas := {|
  ListRecordsArgsSchema := schemaOf listRecordsArgs;
  GetRecordArgsSchema := schemaOf getRecordArgs;
  CreateRecordArgsSchema := schemaOf createRecordArgs;
  UpdateRecordArgsSchema := schemaOf updateRecordArgs;
  DeleteRecordArgsSchema := schemaOf deleteRecordArgs;
  SearchRecordsArgsSchema := schemaOf searchRecordsArgs
|}.

(** [z.object({})] as far as a handler that ignores its input needs it. *)
Definition anyObject : ZodType Value :=
  {| parse := fun v => match v with
                       | VObj _ => inr v
                       | _ => invalidType "object" [] v
                       end;
     jsonSchema := [("type", VStr "object")] |}.

End Zod.

(** ** The example resource ([src/examples/resources/UserResource.ts]) and
    the start-up of [src/examples/index.ts] *)

Module UserResource.
Import JS.

Definition USER_RESOURCE : Resource :=
  {| uri := "mcp://users"; name := "Users";
     description := Some "User management resource" |}.

Definition user (id firstName lastName email role : string) (isActive : bool)
  : Object :=
  [("id", VStr id); ("firstName", VStr firstName); ("lastName", VStr lastName);
   ("email", VStr email); ("role", VStr role); ("isActive", VBool isActive)].

Definition SAMPLE_USERS : list Object :=
  [ user "usr_001" "John" "Doe" "john.doe@example.com" "admin" true;
    user "usr_002" "Jane" "Smith" "jane.smith@example.com" "user" true;
    user "usr_003" "Bob" "Johnson" "bob.johnson@example.com" "guest" false;
    user "usr_004" "Alice" "Williams" "alice.williams@example.com" "user" true;
    user "usr_005" "Charlie" "Brown" "charlie.brown@example.com" "user" false ].

(** The data service after [registerResource] and [seedData]. *)
Definition seeded : InMemoryDataService.State :=
  let s0 := InMemoryDataService.create "mcp://" in
  let s1 := snd (InMemoryDataService.registerResource (name USER_RESOURCE)
                   (description USER_RESOURCE) s0) in
  snd (InMemoryDataService.seedData (now Host.env0) (fun _ => uuid Host.env0)
         (uri USER_RESOURCE) SAMPLE_USERS s1).

Definition users : InMemoryDataService.Records :=
  match JSMap.get String.eqb (InMemoryDataService.data seeded) "mcp://users" with
  | Some rd => rd
  | None => JSMap.empty
  end.

(** Data whose [id] is the empty string. *)
Definition anonymous : Object := [("id", VStr ""); ("firstName", VStr "Eve")].

(** The service after [createRecord(uri, anonymous)] on the seeded one. *)
Definition seededWithAnonymous : InMemoryDataService.State :=
  snd (InMemoryDataService.createRecord Host.env0 (uri USER_RESOURCE)
         anonymous seeded).

End UserResource.

(** The server of [src/examples/index.ts] over the in-memory service, and
    tool registrations for it. *)
Module ExampleServer.
Import JS Utils.
Local Open Scope store_scope.

Definition State := InMemoryDataService.State.

Definition service : IDataService State :=
  @InMemoryDataService.dataService Host.codeOrder.

Definition Server : Type := MCPServer.t State.
Definition Registration : Type := MCPServer.Registration State.

Definition server : Server := @MCPServer.create State service Zod.schemas.

Definition registerAll (rs : list Registration) : Server :=
  @MCPServer.registerAll State server rs.

(** [ActivateUserArgsSchema] *)
Definition userArgs : ZodType Value :=
  {| parse := Zod.zObject (fun p o =>
                Zod.mapResult
                  (fun x => VObj [("resourceUri", VStr (fst x));
                                  ("userId", VStr (snd x))])
                  (Zod.both (Zod.at_ Zod.zString "resourceUri" p o)
                            (Zod.at_ Zod.zString "userId" p o))) [];
     jsonSchema := [("type", VStr "object")] |}.

(** The tool [activate_user] of the example. *)
Definition activate_user : Registration :=
  {| MCPServer.reg_name := "activate_user";
     MCPServer.reg_description := "Activate a user account";
     MCPServer.reg_schema := userArgs;
     MCPServer.reg_handler := fun env args =>
       parsed <- validateInput userArgs args ;;
       match parsed with
       | VObj o =>
           result <- InMemoryDataService.updateRecord env
                       (toString (getProp o "resourceUri"))
                       (toString (getProp o "userId"))
                       [("isActive", VBool true)] ;;
           ret (VObj [("success", VBool true); ("user", VObj result)])
       | _ => ret VUndefined
       end |}.

(** A tool registered under the name of a built-in one. *)
Definition list_records_again : Registration :=
  {| MCPServer.reg_name := "list_records";
     MCPServer.reg_description := "List nothing";
     MCPServer.reg_schema := Zod.anyObject;
     MCPServer.reg_handler := fun _ _ => ret (VArr []) |}.

(** A tool whose input schema is an array schema: [zodToJsonSchema] gives
    it the type ['array']. *)
Definition activate_users : Registration :=
  {| MCPServer.reg_name := "activate_users";
     MCPServer.reg_description := "Activate several user accounts";
     MCPServer.reg_schema :=
       {| parse := fun v => match v with
                            | VArr _ => inr v
                            | _ => Zod.invalidType "array" [] v
                            end;
          jsonSchema := [("type", VStr "array")] |};
     MCPServer.reg_handler := fun _ _ => ret (VObj [("success", VBool true)]) |}.

(** A tool whose handler throws what it was given. *)
Definition rethrow : Registration :=
  {| MCPServer.reg_name := "rethrow";
     MCPServer.reg_description := "Throw the arguments";
     MCPServer.reg_schema := Zod.anyObject;
     MCPServer.reg_handler := fun _ args => throw (Thrown args) |}.

Definition listUsers : MCPServer.CallToolRequest :=
  {| MCPServer.toolName := "list_records";
     MCPServer.arguments := VObj [("resourceUri", VStr "mcp://users")] |}.

Definition activateBob : MCPServer.CallToolRequest :=
  {| MCPServer.toolName := "activate_user";
     MCPServer.arguments := VObj [("resourceUri", VStr "mcp://users");
                                  ("userId", VStr "usr_003")] |}.

Definition unknownCall : MCPServer.CallToolRequest :=
  {| MCPServer.toolName := "drop_table"; MCPServer.arguments := VUndefined |}.

End ExampleServer.

(** * Properties *)

(** ** Strings, objects and maps *)

Module Facts.
Import JS.

Lemma strictEq_sym (a b : Value) : strictEq a b = strictEq b a.
Proof.
  destruct a, b; simpl; try reflexivity.
  - now destruct b, b0.
  - apply Z.eqb_sym.
  - apply String.eqb_sym.
Qed.

(** On the values it relates, [===] is plain equality. *)
Lemma strictEq_eq (a b : Value) : strictEq a b = true -> a = b.
Proof.
  destruct a, b; simpl; try discriminate; intros E; try reflexivity.
  - apply Bool.eqb_prop in E. now subst.
  - apply Z.eqb_eq in E. now subst.
  - apply String.eqb_eq in E. now subst.
Qed.

Lemma strictEq_refl_r (a b : Value) : strictEq a b = true -> strictEq b b = true.
Proof. intros E. pose proof (strictEq_eq _ _ E). now subst. Qed.

Lemma lookup_setProp_same (o : Object) (k : string) (v : Value) :
  lookup (setProp o k v) k = Some v.
Proof.
  induction o as [|[k' v'] o IH]; simpl.
  - now rewrite String.eqb_refl.
  - destruct (k' =? k)%string eqn:E; simpl.
    + now rewrite String.eqb_refl.
    + now rewrite E.
Qed.

Lemma lookup_setProp_other (o : Object) (k k' : string) (v : Value) :
  k <> k' -> lookup (setProp o k v) k' = lookup o k'.
Proof.
  intros N. induction o as [|[k0 v0] o IH]; simpl.
  - destruct (k =? k')%string eqn:E; [apply String.eqb_eq in E; contradiction | reflexivity].
  - destruct (k0 =? k)%string eqn:E; simpl.
    + apply String.eqb_eq in E. subst k0.
      destruct (k =? k')%string eqn:E'; [apply String.eqb_eq in E'; contradiction | reflexivity].
    + destruct (k0 =? k')%string; [reflexivity | exact IH].
Qed.

Lemma getProp_setProp_same (o : Object) (k : string) (v : Value) :
  getProp (setProp o k v) k = v.
Proof. unfold getProp. now rewrite lookup_setProp_same. Qed.

Lemma getProp_setProp_other (o : Object) (k k' : string) (v : Value) :
  k <> k' -> getProp (setProp o k v) k' = getProp o k'.
Proof. intros N. unfold getProp. now rewrite lookup_setProp_other. Qed.

Lemma lookup_None_notin (o : Object) (k : string) :
  existsb (String.eqb k) (map fst o) = false -> lookup o k = None.
Proof.
  induction o as [|[k' v'] o IH]; simpl; [reflexivity|].
  rewrite (String.eqb_sym k k'). destruct (k' =? k)%string; simpl; [discriminate | exact IH].
Qed.

(** Spreading a well-formed object over a target: its properties win. *)
Lemma lookup_spread (source target : Object) (k : string) :
  wfObject source = true ->
  lookup (spread target source) k =
    match lookup source k with
    | Some v => Some v
    | None => lookup target k
    end.
Proof.
  unfold spread. revert target.
  induction source as [|[k' v'] source IH]; intros target W; simpl; [reflexivity|].
  simpl in W. apply andb_true_iff in W as [Hk W]. apply negb_true_iff in Hk.
  rewrite (IH _ W).
  destruct (k' =? k)%string eqn:E.
  - apply String.eqb_eq in E. subst k'.
    rewrite (lookup_None_notin _ _ Hk). apply lookup_setProp_same.
  - destruct (lookup source k); [reflexivity|].
    apply lookup_setProp_other. intros ->. now rewrite String.eqb_refl in E.
Qed.

Section MapFacts.
Context {K V : Type} (keq : K -> K -> bool).

Lemma get_set_same (m : @JSMap.t K V) (k : K) (v : V) :
  keq k k = true -> JSMap.get keq (JSMap.set keq m k v) k = Some v.
Proof.
  intros R. induction m as [|[k' v'] m IH]; simpl.
  - now rewrite R.
  - destruct (keq k' k) eqn:E; simpl; now rewrite E.
Qed.

Lemma get_remove_same (m : @JSMap.t K V) (k : K) :
  JSMap.get keq (JSMap.remove keq m k) k = None.
Proof.
  unfold JSMap.remove. induction m as [|[k' v'] m IH]; simpl; [reflexivity|].
  destruct (keq k' k) eqn:E; simpl; [exact IH | now rewrite E].
Qed.

Lemma keys_set_present (m : @JSMap.t K V) (k : K) (v : V) :
  JSMap.has keq m k = true -> JSMap.keys (JSMap.set keq m k v) = JSMap.keys m.
Proof.
  unfold JSMap.has, JSMap.keys.
  induction m as [|[k' v'] m IH]; simpl; [discriminate|].
  destruct (keq k' k); simpl; [reflexivity|].
  intros P. now rewrite IH.
Qed.

Lemma has_get (m : @JSMap.t K V) (k : K) (v : V) :
  JSMap.get keq m k = Some v -> JSMap.has keq m k = true.
Proof. unfold JSMap.has. now intros ->. Qed.
End MapFacts.

Lemma get_key_refl {V} (m : @JSMap.t Value V) (k : Value) (v : V) :
  JSMap.get strictEq m k = Some v -> strictEq k k = true.
Proof.
  induction m as [|[k' v'] m IH]; simpl; [discriminate|].
  destruct (strictEq k' k) eqn:E; [intros _; eapply strictEq_refl_r; eauto | exact IH].
Qed.

(** Removing one id leaves the records filed under the others. *)
Lemma get_remove_other {V} (m : @JSMap.t Value V) (k k' : Value) :
  strictEq k' k = false ->
  JSMap.get strictEq (JSMap.remove strictEq m k) k' = JSMap.get strictEq m k'.
Proof.
  intros N. unfold JSMap.remove.
  induction m as [|[k0 v0] m IH]; simpl; [reflexivity|].
  destruct (strictEq k0 k) eqn:E; simpl.
  - destruct (strictEq k0 k') eqn:E'; [|exact IH].
    apply strictEq_eq in E'. subst k0. rewrite E in N. discriminate.
  - destruct (strictEq k0 k'); [reflexivity | exact IH].
Qed.

End Facts.

(** ** The record store *)

Module StoreProperties.
Import JS InMemoryDataService Facts.

Lemma registered_put (st : State) (uri : string) (rd rd' : Records) :
  registered st uri rd ->
  registered (setData (fun m => JSMap.set String.eqb m uri rd') st) uri rd'.
Proof.
  intros [Hr Hd]. split; simpl; [exact Hr|].
  apply get_set_same, String.eqb_refl.
Qed.

(** C6.  Updating an id that the resource's collection does not hold fails
    with the error "Record not found: <id>", and the state of the store
    after the call, hence the record collection, is the state before it. *)
Theorem updateRecord_unknown_id_fails_unchanged
    (env : Env) (uri id : string) (d : Object) (st : State) (rd : Records) :
  registered st uri rd ->
  JSMap.get strictEq rd (VStr id) = None ->
  updateRecord env uri id d st = (inl (Error ("Record not found: " ++ id)), st)
  /\ JSMap.get String.eqb (data (snd (updateRecord env uri id d st))) uri
     = Some rd.
Proof.
  intros [Hr Hd] Hid.
  assert (E : updateRecord env uri id d st
              = (inl (Error ("Record not found: " ++ id)), st)).
  { run. rewrite Hr. simpl. rewrite Hd. simpl. now rewrite Hid. }
  split; [exact E | now rewrite E].
Qed.

Lemma updateRecord_unknown_id_witness :
  updateRecord Host.env1 "mcp://users" "usr_999" [("role", VStr "admin")]
    UserResource.seeded
  = (inl (Error "Record not found: usr_999"), UserResource.seeded)
  /\ JSMap.get String.eqb
       (data (snd (updateRecord Host.env1 "mcp://users" "usr_999"
                     [("role", VStr "admin")] UserResource.seeded)))
       "mcp://users"
     = Some UserResource.users.
Proof.
  apply (updateRecord_unknown_id_fails_unchanged Host.env1 "mcp://users"
           "usr_999" [("role", VStr "admin")] UserResource.seeded
           UserResource.users).
  - split; reflexivity.
  - reflexivity.
Defined.

(** C7.  For an id the collection holds, the first [deleteRecord] returns
    [true] and leaves the collection without that id (the records under
    other ids stay); a second [deleteRecord] with the same id then fails
    with "Record not found: <id>". *)
Theorem deleteRecord_twice
    (uri id : string) (st : State) (rd : Records) (r : Object) :
  registered st uri rd ->
  JSMap.get strictEq rd (VStr id) = Some r ->
  exists st1,
    deleteRecord uri id st = (inr true, st1)
    /\ registered st1 uri (JSMap.remove strictEq rd (VStr id))
    /\ JSMap.has strictEq (JSMap.remove strictEq rd (VStr id)) (VStr id) = false
    /\ (forall k, strictEq k (VStr id) = false ->
          JSMap.get strictEq (JSMap.remove strictEq rd (VStr id)) k
          = JSMap.get strictEq rd k)
    /\ deleteRecord uri id st1
       = (inl (Error ("Record not found: " ++ id)), st1).
Proof.
  intros [Hr Hd] Hid.
  set (rd' := JSMap.remove strictEq rd (VStr id)).
  exists (setData (fun m => JSMap.set String.eqb m uri rd') st).
  assert (Hnone : JSMap.get strictEq rd' (VStr id) = None)
    by apply get_remove_same.
  assert (Hreg : registered (setData (fun m => JSMap.set String.eqb m uri rd') st)
                   uri rd')
    by (apply registered_put with (rd := rd); split; assumption).
  repeat split.
  - run. rewrite Hr. simpl. rewrite Hd. simpl.
    unfold JSMap.has. rewrite Hid. reflexivity.
  - apply Hreg.
  - apply Hreg.
  - unfold JSMap.has. now rewrite Hnone.
  - intros k Hk. now apply get_remove_other.
  - destruct Hreg as [Hr' Hd']. run. simpl in Hr'. rewrite Hr'. simpl.
    simpl in Hd'. rewrite Hd'. simpl.
    unfold JSMap.has. fold rd'. now rewrite Hnone.
Qed.

Lemma deleteRecord_twice_witness :
  exists st1,
    deleteRecord "mcp://users" "usr_002" UserResource.seeded = (inr true, st1)
    /\ registered st1 "mcp://users"
         (JSMap.remove strictEq UserResource.users (VStr "usr_002"))
    /\ JSMap.has strictEq
         (JSMap.remove strictEq UserResource.users (VStr "usr_002"))
         (VStr "usr_002") = false
    /\ (forall k, strictEq k (VStr "usr_002") = false ->
          JSMap.get strictEq
            (JSMap.remove strictEq UserResource.users (VStr "usr_002")) k
          = JSMap.get strictEq UserResource.users k)
    /\ deleteRecord "mcp://users" "usr_002" st1
       = (inl (Error "Record not found: usr_002"), st1).
Proof.
  eapply (deleteRecord_twice "mcp://users" "usr_002" UserResource.seeded
            UserResource.users).
  - split; reflexivity.
  - reflexivity.
Defined.

(** C9.  Whenever [deleteRecord] returns normally, the boolean it returns
    is [true]: an absent resource or id has already raised an error. *)
Theorem deleteRecord_returns_only_true
    (uri id : string) (st st' : State) (b : bool) :
  deleteRecord uri id st = (inr b, st') -> b = true.
Proof.
  run.
  destruct (JSMap.has String.eqb (resources st) uri); simpl; [|discriminate].
  destruct (JSMap.get String.eqb (data st) uri) as [rd|]; simpl; [|discriminate].
  destruct (JSMap.has strictEq rd (VStr id)) eqn:E; simpl; [|discriminate].
  intros H. now inversion H.
Qed.

Lemma deleteRecord_returns_only_true_witness :
  fst (deleteRecord "mcp://users" "usr_003" UserResource.seeded) = inr true.
Proof.
  destruct (deleteRecord "mcp://users" "usr_003" UserResource.seeded)
    as [[e|b] st'] eqn:E.
  - vm_compute in E. discriminate E.
  - simpl. f_equal.
    exact (deleteRecord_returns_only_true "mcp://users" "usr_003"
             UserResource.seeded st' b E).
Defined.

(** The id a record is filed under is never falsy. *)
Lemma recordId_truthy (env : Env) (d : Object) :
  uuid env <> "" -> truthy (recordId env d) = true.
Proof.
  intros Hu. unfold recordId.
  destruct (truthy (getProp d "id")) eqn:E; [exact E|].
  simpl. apply negb_true_iff, String.eqb_neq. exact Hu.
Qed.

(** C10, as the specification states it: when the [id] of the data map is
    the [id] of a record of the collection, [createRecord] puts the new
    record in the place of that one, so that the collection holds as many
    records as before.  It fails for the empty string: the record is filed
    under a generated id and keeps the [id] of the data map, and after the
    second call two records carry the [id] [""]. *)
Lemma createRecord_falsy_id_not_replaced :
  ~ (forall (env : Env) (uri : string) (d : Object) (st : State)
            (rd : Records) (old : Object),
       registered st uri rd ->
       In old (JSMap.values rd) ->
       getProp d "id" = getProp old "id" ->
       exists record st',
         createRecord env uri d st = (inr record, st')
         /\ List.length (JSMap.values (collection st' uri))
            = List.length (JSMap.values rd)).
Proof.
  intros H.
  destruct (H Host.env1 "mcp://users" UserResource.anonymous
              UserResource.seededWithAnonymous
              (collection UserResource.seededWithAnonymous "mcp://users")
              (stamped (VStr (uuid Host.env0)) UserResource.anonymous
                 (now Host.env0)))
    as (record & st' & E & L).
  - split; reflexivity.
  - do 5 right. left. reflexivity.
  - reflexivity.
  - vm_compute in E. inversion E as [[Er Est]]. subst st'.
    vm_compute in L. discriminate L.
Qed.

(** C10, amended.  [createRecord] with a data map whose [id] is truthy and
    is the id a record of the collection is filed under raises no error:
    the new record takes the place of the old one under that id, and the
    collection holds the same ids as before, each once. *)
Theorem createRecord_existing_id_overwrites
    (env : Env) (uri : string) (d : Object) (st : State) (rd : Records)
    (k : Value) (old : Object) :
  registered st uri rd ->
  JSMap.get strictEq rd k = Some old ->
  getProp d "id" = k ->
  truthy k = true ->
  let record := stamped k d (now env) in
  exists st',
    createRecord env uri d st = (inr record, st')
    /\ registered st' uri (JSMap.set strictEq rd k record)
    /\ JSMap.get strictEq (JSMap.set strictEq rd k record) k = Some record
    /\ JSMap.keys (JSMap.set strictEq rd k record) = JSMap.keys rd.
Proof.
  intros [Hr Hd] Hold Hid Ht record.
  assert (Hk : recordId env d = k).
  { unfold recordId. rewrite Hid, Ht. reflexivity. }
  exists (setData (fun m => JSMap.set String.eqb m uri
                              (JSMap.set strictEq rd k record)) st).
  repeat split.
  - run. rewrite Hr. simpl. rewrite Hd. simpl. rewrite Hk. reflexivity.
  - exact Hr.
  - simpl. apply get_set_same, String.eqb_refl.
  - apply get_set_same. eapply get_key_refl; eauto.
  - apply keys_set_present. eapply has_get; eauto.
Qed.

Lemma createRecord_existing_id_witness :
  let d := [("id", VStr "usr_002"); ("firstName", VStr "Janet")] in
  let record := stamped (VStr "usr_002") d (now Host.env1) in
  exists st',
    createRecord Host.env1 "mcp://users" d UserResource.seeded = (inr record, st')
    /\ registered st' "mcp://users"
         (JSMap.set strictEq UserResource.users (VStr "usr_002") record)
    /\ JSMap.get strictEq
         (JSMap.set strictEq UserResource.users (VStr "usr_002") record)
         (VStr "usr_002") = Some record
    /\ JSMap.keys (JSMap.set strictEq UserResource.users (VStr "usr_002") record)
       = JSMap.keys UserResource.users.
Proof.
  intros d record.
  eapply (createRecord_existing_id_overwrites Host.env1 "mcp://users" d
            UserResource.seeded UserResource.users (VStr "usr_002")).
  - split; reflexivity.
  - reflexivity.
  - reflexivity.
  - reflexivity.
Defined.

(** C3, as the specification states it for [createdAt]: the [createdAt] of
    an updated record is a stamp of the store, the one the record already
    carried or the time of the call.  It fails: a [createdAt] in the data
    map is stored as it comes. *)
Lemma updateRecord_createdAt_caller_settable :
  ~ (forall (env : Env) (uri id : string) (d : Object) (st st' : State)
            (rd : Records) (existing updated : Object),
       registered st uri rd ->
       JSMap.get strictEq rd (VStr id) = Some existing ->
       updateRecord env uri id d st = (inr updated, st') ->
       getProp updated "createdAt" = getProp existing "createdAt"
       \/ getProp updated "createdAt" = VStr (now env)).
Proof.
  intros H.
  destruct (updateRecord Host.env1 "mcp://users" "usr_001"
              [("createdAt", VStr "1999-12-31T23:59:59.000Z")]
              UserResource.seeded) as [r st'] eqn:E.
  vm_compute in E. inversion E as [[Er Est]]. clear E.
  match type of Er with inr ?u = _ =>
    specialize (H Host.env1 "mcp://users" "usr_001"
                  [("createdAt", VStr "1999-12-31T23:59:59.000Z")]
                  UserResource.seeded st' UserResource.users
                  (UserResource.user "usr_001" "John" "Doe"
                     "john.doe@example.com" "admin" true
                   ++ [("createdAt", VStr (now Host.env0));
                       ("updatedAt", VStr (now Host.env0))])%list
                  u)
  end.
  destruct H as [H|H].
  - split; reflexivity.
  - reflexivity.
  - subst st'. vm_compute. reflexivity.
  - vm_compute in H. discriminate H.
  - vm_compute in H. discriminate H.
Qed.

(** C3, amended.  [updateRecord] on a stored id returns and stores a record
    whose [id] is the id it is stored under, whatever [id] the data map
    carries, and whose [updatedAt] is the time of the call.  [createdAt] is
    not stamped by an update: it is the data map's [createdAt] when there is
    one, and the existing record's otherwise. *)
Theorem updateRecord_keeps_id_stamps_updatedAt
    (env : Env) (uri id : string) (d : Object) (st : State) (rd : Records)
    (existing : Object) :
  registered st uri rd ->
  JSMap.get strictEq rd (VStr id) = Some existing ->
  exists updated st',
    updateRecord env uri id d st = (inr updated, st')
    /\ registered st' uri (JSMap.set strictEq rd (VStr id) updated)
    /\ JSMap.get strictEq (JSMap.set strictEq rd (VStr id) updated) (VStr id)
       = Some updated
    /\ getProp updated "id" = VStr id
    /\ (getProp existing "id" = VStr id ->
        getProp updated "id" = getProp existing "id")
    /\ getProp updated "updatedAt" = VStr (now env)
    /\ (wfObject existing = true -> wfObject d = true ->
        lookup updated "createdAt" =
          match lookup d "createdAt" with
          | Some v => Some v
          | None => lookup existing "createdAt"
          end).
Proof.
  intros [Hr Hd] Hid.
  set (updated :=
         setProp (setProp (spread (spread [] existing) d) "id" (VStr id))
                 "updatedAt" (VStr (now env))).
  assert (Hidp : getProp updated "id" = VStr id).
  { unfold updated. rewrite getProp_setProp_other by discriminate.
    apply getProp_setProp_same. }
  exists updated,
    (setData (fun m => JSMap.set String.eqb m uri
                         (JSMap.set strictEq rd (VStr id) updated)) st).
  repeat split.
  - run. rewrite Hr. simpl. rewrite Hd. simpl. rewrite Hid. reflexivity.
  - exact Hr.
  - simpl. apply get_set_same, String.eqb_refl.
  - apply get_set_same. simpl. apply String.eqb_refl.
  - exact Hidp.
  - intros E. now rewrite Hidp, E.
  - apply getProp_setProp_same.
  - intros We Wd. unfold updated.
    rewrite !lookup_setProp_other by discriminate.
    rewrite (lookup_spread d _ _ Wd).
    destruct (lookup d "createdAt"); [reflexivity|].
    rewrite (lookup_spread existing _ _ We).
    now destruct (lookup existing "createdAt").
Qed.

Lemma updateRecord_keeps_id_witness :
  exists updated st',
    updateRecord Host.env1 "mcp://users" "usr_001"
      [("id", VStr "usr_777"); ("role", VStr "guest")] UserResource.seeded
    = (inr updated, st')
    /\ getProp updated "id" = VStr "usr_001"
    /\ getProp updated "updatedAt" = VStr (now Host.env1)
    /\ lookup updated "createdAt" = Some (VStr (now Host.env0)).
Proof.
  destruct (updateRecord_keeps_id_stamps_updatedAt Host.env1 "mcp://users"
              "usr_001" [("id", VStr "usr_777"); ("role", VStr "guest")]
              UserResource.seeded UserResource.users
              (UserResource.user "usr_001" "John" "Doe"
                 "john.doe@example.com" "admin" true
               ++ [("createdAt", VStr (now Host.env0));
                   ("updatedAt", VStr (now Host.env0))])%list)
    as (updated & st' & E & _ & _ & Hi & _ & Hu & Hc).
  - split; reflexivity.
  - reflexivity.
  - exists updated, st'. repeat split; try assumption.
    rewrite Hc; reflexivity.
Defined.

(** C2, as the specification states it: the URI collapses each run of
    non-alphanumeric characters into one separator.  It fails on a name with
    two adjacent blanks. *)
Lemma registerResource_does_not_collapse_runs :
  ~ (forall (name : string) (description : option string) (st st' : State)
            (r : Resource),
       registerResource name description st = (inr r, st') ->
       uri r = Spec.uriByRuns (resourcePrefix st) name).
Proof.
  intros H.
  specialize (H "a  b" None (create "mcp://") _ _ eq_refl).
  vm_compute in H. discriminate H.
Qed.

Lemma replaceNonAlnum_per_character (s : string) :
  replaceNonAlnum s = Spec.mapString Spec.separate s.
Proof. induction s as [|c s IH]; simpl; [reflexivity | now rewrite IH]. Qed.

Lemma mapString_length (f : ascii -> ascii) (s : string) :
  String.length (Spec.mapString f s) = String.length s.
Proof. induction s as [|c s IH]; simpl; congruence. Qed.

(** C2, amended.  [registerResource] derives the URI from the configured
    prefix followed by the lowercased name in which every single character
    that is not in [a-z0-9] is replaced by one ["-"]: as many separators as
    the lowercased name has such characters, adjacent or not, and an
    identifier as long as the lowercased name. *)
Theorem registerResource_uri_per_character
    (name : string) (description : option string) (st : State) :
  exists st',
    registerResource name description st
    = (inr {| uri := resourcePrefix st
                     ++ Spec.mapString Spec.separate (toLowerCase name);
              name := name; description := description |}, st')
    /\ resourceId name = Spec.mapString Spec.separate (toLowerCase name)
    /\ String.length (resourceId name) = String.length (toLowerCase name).
Proof.
  assert (E : resourceId name = Spec.mapString Spec.separate (toLowerCase name))
    by apply replaceNonAlnum_per_character.
  eexists. repeat split.
  - run. rewrite E. reflexivity.
  - exact E.
  - rewrite E. apply mapString_length.
Qed.

End StoreProperties.

(** ** The query pipeline *)

Module QueryProperties.
Import JS QueryEngine Facts.

Section SortFacts.
Context {A : Type} (cmp : A -> A -> Z).

Lemma insert_perm (x : A) (l : list A) : Permutation (insert cmp x l) (x :: l).
Proof.
  induction l as [|y l IH]; simpl; [reflexivity|].
  destruct (cmp x y >? 0); [|reflexivity].
  rewrite IH. apply perm_swap.
Qed.

Lemma sortBy_perm (l : list A) : Permutation (sortBy cmp l) l.
Proof.
  induction l as [|x l IH]; simpl; [reflexivity|].
  rewrite insert_perm. now apply perm_skip.
Qed.

(** Stability: elements that the comparator never puts strictly after one
    another keep their order. *)
Lemma filter_insert (P : A -> bool) (x : A) (l : list A) :
  (forall a b, P a = true -> P b = true -> cmp a b <= 0) ->
  List.filter P (insert cmp x l) = List.filter P (x :: l).
Proof.
  intros HP. induction l as [|y l IH]; simpl; [reflexivity|].
  destruct (cmp x y >? 0) eqn:E; [|reflexivity].
  simpl. simpl in IH. rewrite IH.
  destruct (P x) eqn:Px, (P y) eqn:Py; try reflexivity.
  specialize (HP x y Px Py). apply Z.gtb_lt in E. lia.
Qed.

Lemma sortBy_stable (P : A -> bool) (l : list A) :
  (forall a b, P a = true -> P b = true -> cmp a b <= 0) ->
  List.filter P (sortBy cmp l) = List.filter P l.
Proof.
  intros HP. induction l as [|x l IH]; simpl; [reflexivity|].
  rewrite (filter_insert P x _ HP). simpl. now rewrite IH.
Qed.

Hypothesis cmp_antisym : forall a b, cmp a b > 0 -> cmp b a <= 0.

Lemma insert_sorted (x : A) (l : list A) :
  Sorted (inOrder cmp) l -> Sorted (inOrder cmp) (insert cmp x l).
Proof.
  induction l as [|y l IH]; simpl; intros HS.
  - repeat constructor.
  - destruct (cmp x y >? 0) eqn:E.
    + inversion HS as [|? ? HS' Hd]; subst.
      constructor; [now apply IH|].
      destruct l as [|z l]; simpl.
      * constructor. apply cmp_antisym. apply Z.gtb_lt in E. lia.
      * destruct (cmp x z >? 0).
        -- inversion Hd; subst. now constructor.
        -- constructor. apply cmp_antisym. apply Z.gtb_lt in E. lia.
    + constructor; [exact HS|]. constructor.
      unfold inOrder. destruct (Z.gtb_spec (cmp x y) 0); [discriminate | lia].
Qed.

Lemma sortBy_sorted (l : list A) : Sorted (inOrder cmp) (sortBy cmp l).
Proof.
  induction l as [|x l IH]; simpl; [constructor | now apply insert_sorted].
Qed.

Lemma sortBy_of_sorted (l : list A) : Sorted (inOrder cmp) l -> sortBy cmp l = l.
Proof.
  induction l as [|x l IH]; simpl; intros HS; [reflexivity|].
  inversion HS as [|? ? HS' Hd]; subst.
  rewrite (IH HS').
  destruct l as [|y l]; simpl; [reflexivity|].
  inversion Hd; subst. unfold inOrder in *.
  destruct (Z.gtb_spec (cmp x y) 0); [lia | reflexivity].
Qed.

Lemma sortBy_idempotent (l : list A) :
  sortBy cmp (sortBy cmp l) = sortBy cmp l.
Proof. apply sortBy_of_sorted, sortBy_sorted. Qed.
End SortFacts.

Section Pairwise.
Context {A : Type} (cmp : A -> A -> Z).


End Pairwise.

(** Under a consistent comparator the sorted, stable rearrangement of an
    array is unique: it is the one [sortBy] computes. *)
Section Unique.
Context {A : Type} (cmp : A -> A -> Z).
Hypothesis cmp_sgn : forall a b, Z.sgn (cmp b a) = - Z.sgn (cmp a b).
Hypothesis cmp_trans :
  forall a b c, cmp a b <= 0 -> cmp b c <= 0 -> cmp a c <= 0.

Lemma cmp_refl (a : A) : cmp a a = 0.
Proof. pose proof (cmp_sgn a a). apply Z.sgn_null_iff. lia. Qed.

Lemma cmp_both (a b : A) : cmp a b <= 0 -> cmp b a <= 0 -> cmp a b = 0.
Proof.
  intros Hab Hba. pose proof (cmp_sgn a b) as Hs.
  destruct (Z.sgn_spec (cmp a b)) as [[? ?]|[[? ?]|[? ?]]];
    destruct (Z.sgn_spec (cmp b a)) as [[? ?]|[[? ?]|[? ?]]]; lia.
Qed.

Lemma sorted_stable_unique (l1 : list A) :
  forall l2,
    Permutation l1 l2 ->
    StronglySorted (inOrder cmp) l1 ->
    StronglySorted (inOrder cmp) l2 ->
    (forall x, List.filter (tied cmp x) l1 = List.filter (tied cmp x) l2) ->
    l1 = l2.
Proof.
  induction l1 as [|x t1 IH]; intros l2 HP S1 S2 HF.
  - symmetry. now apply Permutation_nil.
  - destruct l2 as [|y t2].
    + apply Permutation_sym, Permutation_nil in HP. discriminate.
    + inversion S1 as [|? ? S1' F1]; inversion S2 as [|? ? S2' F2]; subst.
      assert (Hxy : cmp x y <= 0).
      { assert (Hin : In y (x :: t1))
          by (eapply Permutation_in; [symmetry; exact HP | now left]).
        destruct Hin as [->|Hin]; [rewrite cmp_refl; lia|].
        rewrite Forall_forall in F1. now apply F1. }
      assert (Hyx : cmp y x <= 0).
      { assert (Hin : In x (y :: t2))
          by (eapply Permutation_in; [exact HP | now left]).
        destruct Hin as [->|Hin]; [rewrite cmp_refl; lia|].
        rewrite Forall_forall in F2. now apply F2. }
      assert (E : x = y).
      { assert (Txx : tied cmp x x = true)
          by (unfold tied; now rewrite cmp_refl).
        assert (Txy : tied cmp x y = true)
          by (unfold tied; now rewrite (cmp_both x y Hxy Hyx)).
        pose proof (HF x) as Hx. simpl in Hx. rewrite Txx, Txy in Hx.
        now inversion Hx. }
      subst y. f_equal. apply IH; auto.
      * now apply Permutation_cons_inv in HP.
      * intros z. pose proof (HF z) as Hz. simpl in Hz.
        destruct (tied cmp z x); [now inversion Hz | exact Hz].
Qed.

Lemma sortBy_unique (l l' : list A) :
  Permutation l' l ->
  StronglySorted (inOrder cmp) l' ->
  (forall x, List.filter (tied cmp x) l' = List.filter (tied cmp x) l) ->
  l' = sortBy cmp l.
Proof.
  intros HP HS HF. apply sorted_stable_unique; auto.
  - rewrite HP. symmetry. apply sortBy_perm.
  - apply Sorted_StronglySorted.
    + intros a b c. apply cmp_trans.
    + apply sortBy_sorted. intros a b Hgt. pose proof (cmp_sgn a b) as Hs.
      destruct (Z.sgn_spec (cmp a b)) as [[? ?]|[[? ?]|[? ?]]];
        destruct (Z.sgn_spec (cmp b a)) as [[? ?]|[[? ?]|[? ?]]]; lia.
  - intros x. rewrite HF. symmetry. apply sortBy_stable.
    unfold tied. intros a b Ha Hb.
    apply Z.eqb_eq in Ha, Hb.
    apply cmp_trans with x; [|lia].
    pose proof (cmp_sgn x a) as Hs. rewrite Ha in Hs. simpl in Hs.
    apply Z.sgn_null_iff in Hs. lia.
Qed.
End Unique.

Lemma filter_id {A} (f : A -> bool) (l : list A) :
  Forall (fun x => f x = true) l -> List.filter f l = l.
Proof.
  induction 1 as [|x l Hx Hl IH]; simpl; [reflexivity|].
  now rewrite Hx, IH.
Qed.

Lemma compareCodes_antisym (x y : string) :
  Z.sgn (Host.compareCodes y x) = - Z.sgn (Host.compareCodes x y).
Proof.
  unfold Host.compareCodes. rewrite (String.compare_antisym x y).
  now destruct (String.compare y x).
Qed.

Section Comparator.
Context `{Locale}.



Hypothesis localeCompare_antisym :
  forall x y, Z.sgn (localeCompare y x) = - Z.sgn (localeCompare x y).

Lemma compareRecords_sgn (specs : list SortItem) (a b : Object) :
  Z.sgn (compareRecords specs b a) = - Z.sgn (compareRecords specs a b).
Proof.
  induction specs as [|s specs IH]; simpl; [reflexivity|].
  rewrite (strictEq_sym (getProp b (field s)) (getProp a (field s))).
  destruct (strictEq (getProp a (field s)) (getProp b (field s))) eqn:E;
    [exact IH|].
  remember (getProp a (field s)) as av eqn:Ea.
  remember (getProp b (field s)) as bv eqn:Eb.
  destruct (isUndefined av) eqn:Ua, (isUndefined bv) eqn:Ub.
  - destruct av, bv; discriminate.
  - now destruct (directionOf s).
  - now destruct (directionOf s).
  - destruct (directionOf s); [apply localeCompare_antisym|].
    rewrite !Z.sgn_opp, localeCompare_antisym. lia.
Qed.

Lemma compareRecords_antisym (specs : list SortItem) (a b : Object) :
  compareRecords specs a b > 0 -> compareRecords specs b a <= 0.
Proof.
  intros Hgt. pose proof (compareRecords_sgn specs a b) as Hs.
  rewrite (Z.sgn_pos (compareRecords specs a b)) in Hs by lia.
  destruct (Z.sgn_spec (compareRecords specs b a)) as [[? ?]|[[? ?]|[? ?]]]; lia.
Qed.
End Comparator.

Lemma searchStage_fixed (q : Query) (R X : list Object) :
  (forall x, In x X -> In x (searchStage q R)) -> searchStage q X = X.
Proof.
  unfold searchStage. destruct (searchTerm q) as [s|]; [|reflexivity].
  destruct (truthy (VStr s)); [|reflexivity].
  intros Hin. apply filter_id, Forall_forall. intros x Hx.
  now apply Hin, filter_In in Hx.
Qed.

Lemma filterStage_fixed (q : Query) (R X : list Object) :
  (forall x, In x X -> In x (filterStage q R)) -> filterStage q X = X.
Proof.
  unfold filterStage. destruct (filter q) as [f|]; [|reflexivity].
  intros Hin. apply filter_id, Forall_forall. intros x Hx.
  now apply Hin, filter_In in Hx.
Qed.

Lemma sortStage_perm `{Locale} (q : Query) (l : list Object) :
  Permutation (sortStage q l) l.
Proof.
  unfold sortStage. destruct (sort q) as [[|s specs]|]; try reflexivity.
  apply sortBy_perm.
Qed.

(** C4.  With no search term, filter, sort or limit the pipeline returns the
    records as they are, in their order, and [queryResource] on a registered
    resource returns its record collection in insertion order; and for a
    query without limit, running the pipeline on its own output changes
    nothing. *)
Theorem execute_identity_and_idempotent `{Locale}
    (localeCompare_antisym :
       forall x y, Z.sgn (localeCompare y x) = - Z.sgn (localeCompare x y))
    (R : list Object) :
  execute R emptyQuery = R
  /\ (forall st uri rd,
        InMemoryDataService.registered st uri rd ->
        InMemoryDataService.queryResource uri emptyQuery st
        = (inr (JSMap.values rd), st))
  /\ (forall q, maxRecords q = None ->
        execute (execute R q) q = execute R q).
Proof.
  split; [reflexivity|]. split.
  - intros st uri rd [Hr Hd]. InMemoryDataService.run.
    rewrite Hr. simpl. rewrite Hd. reflexivity.
  - intros q Hmax. unfold execute, limitStage. rewrite Hmax.
    set (Y := filterStage q (searchStage q R)).
    assert (Hsub : forall x, In x (sortStage q Y) -> In x Y).
    { intros x. apply Permutation_in, sortStage_perm. }
    rewrite (searchStage_fixed q R).
    2:{ intros x Hx. apply Hsub in Hx. unfold Y in Hx.
        unfold filterStage in Hx. destruct (filter q); [|exact Hx].
        now apply filter_In in Hx. }
    rewrite (filterStage_fixed q (searchStage q R)) by exact Hsub.
    unfold sortStage. destruct (sort q) as [[|s specs]|]; try reflexivity.
    apply sortBy_idempotent.
    intros a b. now apply compareRecords_antisym.
Qed.

Lemma execute_idempotent_witness :
  let q := {| searchTerm := Some "E"; fields := Some ["email"; "role"];
              filter := Some [("isActive", VBool true)];
              sort := Some [ {| field := "role"; direction := Some desc |};
                             {| field := "firstName"; direction := None |} ];
              maxRecords := None |} in
  let R := JSMap.values UserResource.users in
  @execute Host.codeOrder R emptyQuery = R
  /\ @execute Host.codeOrder (@execute Host.codeOrder R q) q
     = @execute Host.codeOrder R q.
Proof.
  intros q R.
  destruct (@execute_identity_and_idempotent Host.codeOrder
              compareCodes_antisym R) as (H1 & _ & H3).
  split; [exact H1 | apply H3; reflexivity].
Defined.

Section UniqueOn.
Context {A : Type} (cmp : A -> A -> Z).
Hypothesis cmp_sgn : forall a b, Z.sgn (cmp b a) = - Z.sgn (cmp a b).







End UniqueOn.


Lemma printable_returns (v : Value) :
  printable v = true -> stringThrows v = false.
Proof.
  unfold printable. intros Hp. apply andb_true_iff in Hp as [Hp _].
  now apply negb_true_iff.
Qed.





(** The end-to-end scenario of the specification, on the seeded users:
    filter on [role], sort by [id] descending. *)
Example list_users_by_id_desc :
  map (fun r => getProp r "id")
    (@execute Host.codeOrder (JSMap.values UserResource.users)
       {| searchTerm := None; fields := None;
          filter := Some [("role", VStr "user")];
          sort := Some [ {| field := "id"; direction := Some desc |} ];
          maxRecords := Some 2 |})
  = [VStr "usr_005"; VStr "usr_004"].
Proof. reflexivity. Qed.

End QueryProperties.

(** ** The dispatcher *)

Module ServerProperties.
Import JS Utils MCPServer Facts.




Lemma find_app_last {A} (f : A -> bool) (l : list A) (x : A) :
  find f (l ++ [x]) =
    match find f l with
    | Some y => Some y
    | None => if f x then Some x else None
    end.
Proof.
  induction l as [|y l IH]; simpl; [reflexivity|].
  destruct (f y); [reflexivity | exact IH].
Qed.

Lemma find_none_iff {A} (f : A -> bool) (l : list A) :
  (forall x, In x l -> f x = false) -> find f l = None.
Proof.
  induction l as [|y l IH]; simpl; intros Hf; [reflexivity|].
  rewrite (Hf y) by now left. apply IH. intros x Hx. apply Hf. now right.
Qed.

Lemma find_app_skip {A} (f : A -> bool) (l1 l2 : list A) :
  (forall x, In x l1 -> f x = false) -> find f (l1 ++ l2) = find f l2.
Proof.
  induction l1 as [|y l1 IH]; simpl; intros Hf; [reflexivity|].
  rewrite (Hf y) by now left. apply IH. intros x Hx. apply Hf. now right.
Qed.

Section Dispatch.
Context {S : Type} `{IDataService S} `{Args.ArgsSchemas}.

(** Each [registerTool] puts its own test in front of the handler that was
    there: the latest registration under a name is tried first. *)
Lemma handleCallTool_registerAll (rs : list (Registration S)) :
  forall (srv : MCPServer.t S) env request s,
    handleCallTool (registerAll srv rs) env request s =
      match find (Spec.named (toolName request)) (rev rs) with
      | Some r => Spec.runRegistered r env request s
      | None => handleCallTool srv env request s
      end.
Proof.
  induction rs as [|r rs IH]; intros srv env request s; simpl; [reflexivity|].
  unfold registerAll in *. simpl. rewrite IH, find_app_last.
  destruct (find (Spec.named (toolName request)) (rev rs)); [reflexivity|].
  unfold register, registerTool, Spec.named. simpl.
  rewrite (String.eqb_sym (reg_name r) (toolName request)).
  now destruct (toolName request =? reg_name r)%string.
Qed.

Lemma handleCallTool_unregistered_name (rs : list (Registration S))
    (srv : MCPServer.t S) env request s :
  (forall r, In r rs -> reg_name r <> toolName request) ->
  handleCallTool (registerAll srv rs) env request s
  = handleCallTool srv env request s.
Proof.
  intros Hno. rewrite handleCallTool_registerAll.
  rewrite find_none_iff; [reflexivity|].
  intros r Hr. apply in_rev in Hr. unfold Spec.named.
  apply String.eqb_neq. now apply Hno.
Qed.

(** The listing grows by one entry per registration, in registration order,
    whether or not the name was already listed. *)
Lemma handleListTools_registerAll (rs : list (Registration S)) :
  forall (srv : MCPServer.t S) tools,
    handleListTools srv = inr tools ->
    (forall r, In r rs -> exists js, getInputSchema (reg_schema r) = inr js) ->
    handleListTools (registerAll srv rs) = inr (tools ++ map listed rs)%list.
Proof.
  unfold registerAll.
  induction rs as [|r rs IH]; intros srv tools Hsrv Hok; simpl.
  - now rewrite app_nil_r.
  - destruct (Hok r (or_introl eq_refl)) as [js Hjs].
    rewrite (IH _ (tools ++ [listed r])%list).
    + now rewrite <- app_assoc.
    + unfold register, registerTool, listed. simpl. now rewrite Hsrv, Hjs.
    + intros r' Hr'. apply Hok. now right.
Qed.



(** C1, amended.  After any sequence of registrations, invoking a name
    through the server's [handleCallTool] runs the latest registration made
    under that name, and the built-in switch when there is none: a
    built-in tool resolves exactly as long as no tool was registered under
    its name, and a registered tool is dispatched to whenever no later
    registration bears its name (later registrations take precedence over
    earlier ones and over the built-ins). *)
Theorem handleCallTool_latest_registration_dispatch
    (rs : list (Registration S)) env request s :
  handleCallTool (registerAll create rs) env request s
  = Spec.dispatchLatestFirst rs env request s
  /\ ((forall r, In r rs -> reg_name r <> toolName request) ->
      handleCallTool (registerAll create rs) env request s
      = builtinCallTool env request s)
  /\ (forall rs1 r rs2,
        rs = (rs1 ++ r :: rs2)%list ->
        reg_name r = toolName request ->
        (forall r', In r' rs2 -> reg_name r' <> toolName request) ->
        handleCallTool (registerAll create rs) env request s
        = Spec.runRegistered r env request s).
Proof.
  assert (E : handleCallTool (registerAll create rs) env request s
              = Spec.dispatchLatestFirst rs env request s)
    by (unfold Spec.dispatchLatestFirst; rewrite handleCallTool_registerAll;
        now destruct (find _ _)).
  split; [exact E|]. split.
  - apply handleCallTool_unregistered_name.
  - rewrite E. unfold Spec.dispatchLatestFirst. intros rs1 r rs2 -> Hr Hno.
    rewrite rev_app_distr. simpl. rewrite <- app_assoc. simpl.
    rewrite find_app_skip.
    + simpl. unfold Spec.named. now rewrite Hr, String.eqb_refl.
    + intros r' Hr'. apply in_rev in Hr'. unfold Spec.named.
      apply String.eqb_neq. now apply Hno.
Qed.


End Dispatch.

(** C1, as the specification states it: earlier registrations, the built-ins
    first, take precedence.  It fails: a tool registered under the name
    [list_records] answers in place of the built-in one. *)
Lemma registered_name_shadows_builtin :
  ~ (forall (rs : list ExampleServer.Registration) env request s,
       handleCallTool (ExampleServer.registerAll rs) env request s
       = @Spec.dispatchEarliestFirst _ ExampleServer.service Zod.schemas
           rs env request s).
Proof.
  intros H.
  specialize (H [ExampleServer.list_records_again] Host.env1
                ExampleServer.listUsers UserResource.seeded).
  vm_compute in H. discriminate H.
Qed.

Lemma latest_registration_first_witness :
  let rs := [ExampleServer.list_records_again; ExampleServer.activate_user;
             ExampleServer.list_records_again] in
  handleCallTool (ExampleServer.registerAll rs) Host.env1
    ExampleServer.unknownCall UserResource.seeded
  = @builtinCallTool _ ExampleServer.service Zod.schemas Host.env1
      ExampleServer.unknownCall UserResource.seeded
  /\ handleCallTool (ExampleServer.registerAll rs) Host.env1
       ExampleServer.activateBob UserResource.seeded
     = @Spec.runRegistered _ ExampleServer.activate_user Host.env1
         ExampleServer.activateBob UserResource.seeded.
Proof.
  intros rs.
  destruct (@handleCallTool_latest_registration_dispatch _
              ExampleServer.service Zod.schemas rs Host.env1
              ExampleServer.unknownCall UserResource.seeded)
    as (_ & Hbuiltin & _).
  destruct (@handleCallTool_latest_registration_dispatch _
              ExampleServer.service Zod.schemas rs Host.env1
              ExampleServer.activateBob UserResource.seeded)
    as (_ & _ & Hreg).
  split.
  - apply Hbuiltin. intros r [<-|[<-|[<-|[]]]]; discriminate.
  - apply (Hreg [ExampleServer.list_records_again] ExampleServer.activate_user
             [ExampleServer.list_records_again] eq_refl eq_refl).
    intros r [<-|[]]. discriminate.
Defined.


(** The example's own tool goes through the dispatcher and the store. *)
Example activate_user_runs :
  fst (handleCallTool
         (ExampleServer.registerAll [ExampleServer.activate_user]) Host.env1
         ExampleServer.activateBob UserResource.seeded)
  = inr (formatToolResponse
           (VObj [("success", VBool true);
                  ("user",
                   VObj (UserResource.user "usr_003" "Bob" "Johnson"
                           "bob.johnson@example.com" "guest" true
                         ++ [("createdAt", VStr (now Host.env0));
                             ("updatedAt", VStr (now Host.env1))])%list)])
           false).
Proof. vm_compute. reflexivity. Qed.

End ServerProperties.

(** * Further properties of the code *)

(** ** Laws of the insertion-ordered map *)

Module MapLaws.

Section Laws.
Context {K V : Type} (keq : K -> K -> bool).
Hypothesis keq_eq : forall a b, keq a b = true -> a = b.

Lemma get_none_all (m : @JSMap.t K V) (k : K) :
  JSMap.get keq m k = None ->
  forall kv, In kv m -> keq (fst kv) k = false.
Proof.
  induction m as [|[k0 v0] m IH]; simpl; intros G kv Hin; [contradiction|].
  destruct (keq k0 k) eqn:E; [discriminate|].
  destruct Hin as [<-|Hin]; [exact E | now apply IH].
Qed.

Lemma set_fresh (m : @JSMap.t K V) (k : K) (v : V) :
  JSMap.get keq m k = None -> JSMap.set keq m k v = (m ++ [(k, v)])%list.
Proof.
  induction m as [|[k0 v0] m IH]; simpl; intros G; [reflexivity|].
  destruct (keq k0 k); [discriminate|]. now rewrite IH.
Qed.

Lemma remove_fresh (m : @JSMap.t K V) (k : K) :
  JSMap.get keq m k = None -> JSMap.remove keq m k = m.
Proof.
  unfold JSMap.remove.
  induction m as [|[k0 v0] m IH]; simpl; intros G; [reflexivity|].
  destruct (keq k0 k); [discriminate|]. simpl. now rewrite IH.
Qed.

Lemma remove_set_fresh (m : @JSMap.t K V) (k : K) (v : V) :
  keq k k = true ->
  JSMap.get keq m k = None ->
  JSMap.remove keq (JSMap.set keq m k v) k = m.
Proof.
  intros R G. rewrite (set_fresh m k v G). unfold JSMap.remove.
  rewrite filter_app. simpl. rewrite R. simpl. rewrite app_nil_r.
  exact (remove_fresh m k G).
Qed.

Lemma set_set (m : @JSMap.t K V) (k : K) (v1 v2 : V) :
  keq k k = true ->
  JSMap.set keq (JSMap.set keq m k v1) k v2 = JSMap.set keq m k v2.
Proof.
  intros R. induction m as [|[k0 v0] m IH]; simpl.
  - now rewrite R.
  - destruct (keq k0 k) eqn:E; simpl; rewrite E; [reflexivity | now rewrite IH].
Qed.

Lemma set_same (m : @JSMap.t K V) (k : K) (v : V) :
  JSMap.get keq m k = Some v -> JSMap.set keq m k v = m.
Proof.
  induction m as [|[k0 v0] m IH]; simpl; intros G; [discriminate|].
  destruct (keq k0 k); [now inversion G | now rewrite IH].
Qed.

Lemma get_set_other (m : @JSMap.t K V) (k k' : K) (v : V) :
  keq k k' = false ->
  JSMap.get keq (JSMap.set keq m k v) k' = JSMap.get keq m k'.
Proof.
  intros N. induction m as [|[k0 v0] m IH]; simpl.
  - now rewrite N.
  - destruct (keq k0 k) eqn:E; simpl.
    + destruct (keq k0 k') eqn:E'; [|reflexivity].
      pose proof (keq_eq _ _ E) as Ek. subst k0. congruence.
    + destruct (keq k0 k'); [reflexivity | exact IH].
Qed.

Lemma keys_set (m : @JSMap.t K V) (k : K) (v : V) :
  JSMap.keys (JSMap.set keq m k v) =
    if JSMap.has keq m k then JSMap.keys m else (JSMap.keys m ++ [k])%list.
Proof.
  unfold JSMap.has, JSMap.keys.
  induction m as [|[k0 v0] m IH]; simpl; [reflexivity|].
  destruct (keq k0 k); simpl; [reflexivity|].
  rewrite IH. now destruct (JSMap.get keq m k).
Qed.

Lemma values_set_fresh (m : @JSMap.t K V) (k : K) (v : V) :
  JSMap.get keq m k = None ->
  JSMap.values (JSMap.set keq m k v) = (JSMap.values m ++ [v])%list.
Proof.
  intros G. rewrite (set_fresh m k v G). unfold JSMap.values.
  now rewrite map_app.
Qed.

Lemma values_set_present (m : @JSMap.t K V) (k : K) (v v0 : V) :
  JSMap.get keq m k = Some v0 ->
  exists before after,
    JSMap.values m = (before ++ v0 :: after)%list /\
    JSMap.values (JSMap.set keq m k v) = (before ++ v :: after)%list.
Proof.
  unfold JSMap.values.
  induction m as [|[k0 w] m IH]; simpl; intros G; [discriminate|].
  destruct (keq k0 k).
  - inversion G; subst. now exists [], (map snd m).
  - destruct (IH G) as (b & a & E1 & E2).
    exists (w :: b), a. simpl. now rewrite E1, E2.
Qed.

End Laws.

End MapLaws.

(** ** The record store, beyond the claims *)

Module StoreLaws.
Import JS InMemoryDataService.

Lemma setData_same (f : @JSMap.t string Records -> @JSMap.t string Records)
    (st : State) :
  f (data st) = data st -> setData f st = st.
Proof. destruct st as [p r d]. unfold setData. simpl. now intros ->. Qed.

Lemma setData_twice (uri : string) (rd1 rd2 : Records) (st : State) :
  setData (fun m => JSMap.set String.eqb m uri rd2)
    (setData (fun m => JSMap.set String.eqb m uri rd1) st)
  = setData (fun m => JSMap.set String.eqb m uri rd2) st.
Proof.
  unfold setData. simpl. f_equal.
  apply MapLaws.set_set, String.eqb_refl.
Qed.

Lemma registered_after_put (st : State) (uri : string) (rd rd' : Records) :
  registered st uri rd ->
  registered (setData (fun m => JSMap.set String.eqb m uri rd') st) uri rd'.
Proof.
  intros [Hr Hd]. split; simpl; [exact Hr|].
  apply Facts.get_set_same, String.eqb_refl.
Qed.

Lemma string_eqb_eq (a b : string) : (a =? b)%string = true -> a = b.
Proof. apply String.eqb_eq. Qed.

Lemma other_uri_after_put (st : State) (uri u : string) (rd' : Records) :
  u <> uri ->
  JSMap.get String.eqb
    (data (setData (fun m => JSMap.set String.eqb m uri rd') st)) u
  = JSMap.get String.eqb (data st) u.
Proof.
  intros N. simpl. apply (MapLaws.get_set_other String.eqb string_eqb_eq).
  apply String.eqb_neq. congruence.
Qed.

Lemma execute_nil `{Locale} (q : Query) : QueryEngine.execute [] q = [].
Proof.
  unfold QueryEngine.execute, QueryEngine.searchStage, QueryEngine.filterStage,
    QueryEngine.sortStage, QueryEngine.limitStage.
  destruct (searchTerm q) as [s|]; [destruct (truthy (VStr s))|];
    destruct (filter q); simpl;
    destruct (sort q) as [[|? ?]|]; simpl;
    destruct (maxRecords q) as [n|]; try reflexivity;
    destruct (n >? 0); try reflexivity; now rewrite firstn_nil.
Qed.

(** X1.  On a URI that is not registered, [getResource], [queryResource],
    [createRecord], [updateRecord], [deleteRecord] and [seedData] all fail
    with "Resource not found: <uri>" and leave the service as it was. *)
Theorem unregistered_uri_rejected `{Locale}
    (env : Env) (uri id : string) (d : Object) (q : Query)
    (timestamp : string) (uuids : nat -> string) (records : list Object)
    (st : State) :
  JSMap.has String.eqb (resources st) uri = false ->
  let e := Error ("Resource not found: " ++ uri) in
  getResource uri st = (inl e, st)
  /\ queryResource uri q st = (inl e, st)
  /\ createRecord env uri d st = (inl e, st)
  /\ updateRecord env uri id d st = (inl e, st)
  /\ deleteRecord uri id st = (inl e, st)
  /\ seedData timestamp uuids uri records st = (inl e, st).
Proof.
  intros Hno e. repeat split; exec; try (now rewrite Hno).
  unfold JSMap.has in Hno.
  now destruct (JSMap.get String.eqb (resources st) uri).
Qed.

Lemma unregistered_uri_witness :
  let e := Error "Resource not found: mcp://books" in
  @queryResource Host.codeOrder "mcp://books" emptyQuery UserResource.seeded
  = (inl e, UserResource.seeded)
  /\ createRecord Host.env1 "mcp://books" [("title", VStr "Emma")]
       UserResource.seeded
     = (inl e, UserResource.seeded).
Proof.
  intros e.
  destruct (@unregistered_uri_rejected Host.codeOrder Host.env1 "mcp://books"
              "b1" [("title", VStr "Emma")] emptyQuery "" (fun _ => "") []
              UserResource.seeded eq_refl)
    as (_ & Hq & Hc & _).
  split; [exact Hq | exact Hc].
Defined.

(** X2.  [registerResource] returns the resource with the derived URI; from
    then on [getResource] finds it and its record collection is empty, so a
    query on it returns nothing: registering a name whose URI is already
    taken discards the records stored there.  Resources and records under
    other URIs are not touched. *)
Theorem registerResource_then_usable `{Locale}
    (name : string) (description : option string) (st : State) :
  let r := {| uri := resourcePrefix st ++ resourceId name; name := name;
              description := description |} in
  let st' := snd (registerResource name description st) in
  fst (registerResource name description st) = inr r
  /\ getResource (uri r) st' = (inr r, st')
  /\ registered st' (uri r) JSMap.empty
  /\ (forall q, queryResource (uri r) q st' = (inr [], st'))
  /\ (forall u, u <> uri r ->
        JSMap.get String.eqb (resources st') u
        = JSMap.get String.eqb (resources st) u
        /\ JSMap.get String.eqb (data st') u = JSMap.get String.eqb (data st) u).
Proof.
  intros r st'.
  assert (Hres : JSMap.get String.eqb (resources st') (uri r) = Some r)
    by (simpl; apply Facts.get_set_same, String.eqb_refl).
  assert (Hdat : JSMap.get String.eqb (data st') (uri r) = Some JSMap.empty)
    by (simpl; apply Facts.get_set_same, String.eqb_refl).
  assert (Hreg : registered st' (uri r) JSMap.empty).
  { split; [|exact Hdat]. unfold JSMap.has. now rewrite Hres. }
  split; [reflexivity|]. split.
  { clearbody st' r. unfold getResource, bind, gets, ret. now rewrite Hres. }
  split; [exact Hreg|]. split.
  - intros q. destruct Hreg as [Hr Hd]. clearbody st' r.
    unfold queryResource, validateResource, resourceData, bind, gets, ret.
    rewrite Hr. simpl. rewrite Hd. simpl. now rewrite execute_nil.
  - intros u N. split; simpl;
      apply (MapLaws.get_set_other String.eqb string_eqb_eq);
      apply String.eqb_neq; intros E; apply N; now rewrite <- E.
Qed.

(** X3.  [listResources] answers in registration order: a resource with a
    new URI is added at the end of the list, one whose URI is already
    registered takes the place of the earlier resource. *)
Theorem listResources_registration_order
    (name : string) (description : option string) (st : State) :
  let r := {| uri := resourcePrefix st ++ resourceId name; name := name;
              description := description |} in
  let st' := snd (registerResource name description st) in
  exists old new,
    listResources st = (inr old, st)
    /\ listResources st' = (inr new, st')
    /\ (JSMap.has String.eqb (resources st) (uri r) = false ->
        new = (old ++ [r])%list)
    /\ (JSMap.has String.eqb (resources st) (uri r) = true ->
        exists before r0 after,
          old = (before ++ r0 :: after)%list
          /\ new = (before ++ r :: after)%list).
Proof.
  intros r st'.
  exists (JSMap.values (resources st)), (JSMap.values (resources st')).
  split; [reflexivity|]. split; [reflexivity|].
  unfold JSMap.has.
  destruct (JSMap.get String.eqb (resources st) (uri r)) as [r0|] eqn:G.
  - split; [discriminate|]. intros _.
    destruct (MapLaws.values_set_present String.eqb (resources st) (uri r) r r0 G)
      as (b & a & E1 & E2).
    now exists b, r0, a.
  - split; [|discriminate]. intros _.
    now apply (MapLaws.values_set_fresh String.eqb).
Qed.

Lemma listResources_order_witness :
  (exists old new,
     listResources UserResource.seeded = (inr old, UserResource.seeded)
     /\ fst (listResources
               (snd (registerResource "Books" None UserResource.seeded)))
        = inr new
     /\ new = (old ++ [{| uri := "mcp://books"; name := "Books";
                          description := None |}])%list)
  /\ (exists old new before r0 after,
        fst (listResources UserResource.seeded) = inr old
        /\ fst (listResources
                  (snd (registerResource "USERS" None UserResource.seeded)))
           = inr new
        /\ old = (before ++ r0 :: after)%list
        /\ new = (before ++ {| uri := "mcp://users"; name := "USERS";
                               description := None |} :: after)%list).
Proof.
  split.
  - destruct (listResources_registration_order "Books" None UserResource.seeded)
      as (old & new & Ho & Hn & Hfresh & _).
    exists old, new. split; [exact Ho|]. split; [now rewrite Hn|].
    exact (Hfresh eq_refl).
  - destruct (listResources_registration_order "USERS" None UserResource.seeded)
      as (old & new & Ho & Hn & _ & Hsame).
    destruct (Hsame eq_refl) as (b & r0 & a & Eo & En).
    exists old, new, b, r0, a.
    split; [now rewrite Ho|]. split; [now rewrite Hn|]. split; assumption.
Defined.

Lemma value_key_eq (a b : Value) : strictEq a b = true -> a = b.
Proof. apply Facts.strictEq_eq. Qed.

Lemma lookup_stamped (k : Value) (d : Object) (timestamp key : string) :
  wfObject d = true ->
  key <> "createdAt" -> key <> "updatedAt" ->
  lookup (stamped k d timestamp) key =
    match lookup d key with
    | Some v => Some v
    | None => if (key =? "id")%string then Some k else None
    end.
Proof.
  intros W N1 N2. unfold stamped.
  rewrite !Facts.lookup_setProp_other by congruence.
  rewrite (Facts.lookup_spread d _ _ W).
  destruct (lookup d key); [reflexivity|].
  cbn [lookup]. now rewrite (String.eqb_sym "id" key).
Qed.

(** X4.  [createRecord] under an id the collection does not hold yet adds
    the record at the end of the collection.  The record carries the time of
    the call as [createdAt] and as [updatedAt], whatever the data map says
    about them, and all other properties of the data map.  Without an [id]
    in the data map the id is the generated one; an [id] that is falsy
    (such as the empty string) stays in the record, which is nevertheless
    filed under the generated id. *)
Theorem createRecord_new_record
    (env : Env) (uri : string) (d : Object) (st : State) (rd : Records) :
  registered st uri rd ->
  JSMap.get strictEq rd (recordId env d) = None ->
  wfObject d = true ->
  exists record st',
    createRecord env uri d st = (inr record, st')
    /\ registered st' uri (rd ++ [(recordId env d, record)])%list
    /\ getProp record "createdAt" = VStr (now env)
    /\ getProp record "updatedAt" = VStr (now env)
    /\ (forall key, key <> "id" -> key <> "createdAt" -> key <> "updatedAt" ->
          lookup record key = lookup d key)
    /\ getProp record "id" =
         match lookup d "id" with
         | Some v => v
         | None => VStr (uuid env)
         end
    /\ (truthy (getProp d "id") = false -> recordId env d = VStr (uuid env)).
Proof.
  intros [Hr Hd] Hfresh W.
  exists (stamped (recordId env d) d (now env)),
    (setData (fun m => JSMap.set String.eqb m uri
                (rd ++ [(recordId env d,
                         stamped (recordId env d) d (now env))])%list) st).
  split.
  { exec. rewrite Hr. simpl. rewrite Hd. simpl.
    now rewrite (MapLaws.set_fresh strictEq rd _ _ Hfresh). }
  split; [now apply registered_after_put with (rd := rd)|].
  split.
  { unfold stamped. rewrite Facts.getProp_setProp_other by discriminate.
    apply Facts.getProp_setProp_same. }
  split; [apply Facts.getProp_setProp_same|].
  split.
  { intros key N0 N1 N2. rewrite lookup_stamped by assumption.
    destruct (lookup d key); [reflexivity|].
    destruct (key =? "id")%string eqn:E; [|reflexivity].
    apply String.eqb_eq in E. contradiction. }
  split.
  { unfold getProp at 1. rewrite lookup_stamped by (assumption || discriminate).
    simpl. destruct (lookup d "id") eqn:L; [reflexivity|].
    unfold recordId, getProp. now rewrite L. }
  intros F. unfold recordId. now rewrite F.
Qed.

Lemma createRecord_new_record_witness :
  exists record st',
    createRecord Host.env1 "mcp://users"
      [("id", VStr ""); ("firstName", VStr "Eve")] UserResource.seeded
    = (inr record, st')
    /\ JSMap.keys
         (collection st' "mcp://users")
       = (JSMap.keys UserResource.users ++ [VStr (uuid Host.env1)])%list
    /\ getProp record "id" = VStr ""
    /\ lookup record "firstName" = Some (VStr "Eve").
Proof.
  destruct (createRecord_new_record Host.env1 "mcp://users"
              [("id", VStr ""); ("firstName", VStr "Eve")]
              UserResource.seeded UserResource.users)
    as (record & st' & E & [_ Hd] & _ & _ & Hk & Hi & _).
  - split; reflexivity.
  - reflexivity.
  - reflexivity.
  - exists record, st'. split; [exact E|]. split.
    + unfold collection. rewrite Hd. unfold JSMap.keys. now rewrite map_app.
    + split; [exact Hi|]. rewrite Hk by discriminate. reflexivity.
Defined.

(** X5.  Creating a record under a new, non-empty id and then deleting that
    id gives back the service exactly as it was before the two calls. *)
Theorem create_then_delete_restores
    (env : Env) (uri id : string) (d : Object) (st : State) (rd : Records) :
  registered st uri rd ->
  getProp d "id" = VStr id ->
  id <> "" ->
  JSMap.get strictEq rd (VStr id) = None ->
  exists record st1,
    createRecord env uri d st = (inr record, st1)
    /\ JSMap.get strictEq (collection st1 uri) (VStr id) = Some record
    /\ deleteRecord uri id st1 = (inr true, st).
Proof.
  intros [Hr Hd] Hid Hne Hfresh.
  assert (Hk : recordId env d = VStr id).
  { unfold recordId. rewrite Hid. simpl.
    destruct (id =? "")%string eqn:E; [|reflexivity].
    apply String.eqb_eq in E. contradiction. }
  set (record := stamped (VStr id) d (now env)).
  set (rd1 := JSMap.set strictEq rd (VStr id) record).
  set (st1 := setData (fun m => JSMap.set String.eqb m uri rd1) st).
  assert (Hreg1 : registered st1 uri rd1)
    by (apply registered_after_put with (rd := rd); now split).
  assert (Hget : JSMap.get strictEq rd1 (VStr id) = Some record).
  { apply Facts.get_set_same. simpl. apply String.eqb_refl. }
  exists record, st1. split.
  { exec. rewrite Hr. simpl. rewrite Hd. simpl. now rewrite Hk. }
  destruct Hreg1 as [Hr1 Hd1]. split; [unfold collection; now rewrite Hd1|].
  unfold deleteRecord, validateResource, resourceData, putResourceData,
    bind, gets, ret, throw, modify.
  cbv beta. rewrite Hr1. cbn [negb]. cbv beta iota. rewrite Hd1.
  cbv beta iota. unfold JSMap.delete, JSMap.has. rewrite Hget.
  cbn [negb]. cbv beta iota. f_equal. unfold st1. rewrite setData_twice. apply setData_same.
  unfold rd1. rewrite (MapLaws.remove_set_fresh strictEq); auto.
  - now apply MapLaws.set_same.
  - simpl. apply String.eqb_refl.
Qed.

Lemma create_then_delete_witness :
  exists record st1,
    createRecord Host.env1 "mcp://users"
      [("id", VStr "usr_100"); ("firstName", VStr "Eve")] UserResource.seeded
    = (inr record, st1)
    /\ deleteRecord "mcp://users" "usr_100" st1 = (inr true, UserResource.seeded).
Proof.
  destruct (create_then_delete_restores Host.env1 "mcp://users" "usr_100"
              [("id", VStr "usr_100"); ("firstName", VStr "Eve")]
              UserResource.seeded UserResource.users)
    as (record & st1 & E & _ & D).
  - split; reflexivity.
  - reflexivity.
  - discriminate.
  - reflexivity.
  - now exists record, st1.
Defined.

(** X6.  [updateRecord] works in place: the collection keeps its ids in
    their order, the records under other ids and the collections of other
    resources are the same as before, and the stored record is the existing
    one with the properties of the data map laid over it ([id] and
    [updatedAt] apart, which the store sets). *)
Theorem updateRecord_merges_in_place
    (env : Env) (uri id : string) (d : Object) (st : State) (rd : Records)
    (existing : Object) :
  registered st uri rd ->
  JSMap.get strictEq rd (VStr id) = Some existing ->
  exists updated st',
    updateRecord env uri id d st = (inr updated, st')
    /\ registered st' uri (JSMap.set strictEq rd (VStr id) updated)
    /\ JSMap.keys (JSMap.set strictEq rd (VStr id) updated) = JSMap.keys rd
    /\ (forall k, strictEq (VStr id) k = false ->
          JSMap.get strictEq (JSMap.set strictEq rd (VStr id) updated) k
          = JSMap.get strictEq rd k)
    /\ (forall u, u <> uri ->
          JSMap.get String.eqb (data st') u = JSMap.get String.eqb (data st) u)
    /\ resources st' = resources st
    /\ (wfObject existing = true -> wfObject d = true ->
        forall key, key <> "id" -> key <> "updatedAt" ->
          lookup updated key =
            match lookup d key with
            | Some v => Some v
            | None => lookup existing key
            end).
Proof.
  intros [Hr Hd] Hid.
  set (updated :=
         setProp (setProp (spread (spread [] existing) d) "id" (VStr id))
                 "updatedAt" (VStr (now env))).
  exists updated,
    (setData (fun m => JSMap.set String.eqb m uri
                         (JSMap.set strictEq rd (VStr id) updated)) st).
  split.
  { exec. rewrite Hr. simpl. rewrite Hd. simpl. now rewrite Hid. }
  split; [now apply registered_after_put with (rd := rd)|].
  split.
  { apply Facts.keys_set_present. unfold JSMap.has. now rewrite Hid. }
  split.
  { intros k N. now apply (MapLaws.get_set_other strictEq value_key_eq). }
  split; [intros u N; now apply other_uri_after_put|].
  split; [reflexivity|].
  intros We Wd key N1 N2. unfold updated.
  rewrite !Facts.lookup_setProp_other by congruence.
  rewrite (Facts.lookup_spread d _ _ Wd).
  destruct (lookup d key); [reflexivity|].
  rewrite (Facts.lookup_spread existing _ _ We).
  now destruct (lookup existing key).
Qed.

Lemma updateRecord_merges_witness :
  exists updated st',
    updateRecord Host.env1 "mcp://users" "usr_003" [("role", VStr "admin")]
      UserResource.seeded
    = (inr updated, st')
    /\ JSMap.keys
         (collection st' "mcp://users")
       = JSMap.keys UserResource.users
    /\ lookup updated "role" = Some (VStr "admin")
    /\ lookup updated "email" = Some (VStr "bob.johnson@example.com").
Proof.
  destruct (updateRecord_merges_in_place Host.env1 "mcp://users" "usr_003"
              [("role", VStr "admin")] UserResource.seeded UserResource.users
              (UserResource.user "usr_003" "Bob" "Johnson"
                 "bob.johnson@example.com" "guest" false
               ++ [("createdAt", VStr (now Host.env0));
                   ("updatedAt", VStr (now Host.env0))])%list)
    as (updated & st' & E & [_ Hd] & Hk & _ & _ & _ & Hm).
  - split; reflexivity.
  - reflexivity.
  - exists updated, st'. split; [exact E|].
    split; [unfold collection; now rewrite Hd|].
    split; rewrite Hm; try reflexivity; discriminate.
Defined.

Lemma has_set_mono (m : @JSMap.t string Records) (k k' : string) (v : Records) :
  JSMap.has String.eqb m k' = true ->
  JSMap.has String.eqb (JSMap.set String.eqb m k v) k' = true.
Proof.
  unfold JSMap.has. intros Hm.
  destruct (String.eqb k k') eqn:E.
  - apply String.eqb_eq in E. subst k'.
    now rewrite Facts.get_set_same by apply String.eqb_refl.
  - now rewrite (MapLaws.get_set_other String.eqb string_eqb_eq) by exact E.
Qed.

Lemma consistent_put (st : State) (uri : string) (rd : Records) :
  consistent st = true ->
  consistent (setData (fun m => JSMap.set String.eqb m uri rd) st) = true.
Proof.
  unfold consistent. simpl. rewrite !forallb_forall.
  intros C u Hu. now apply has_set_mono, C.
Qed.

Lemma consistent_register (name : string) (description : option string)
    (st : State) :
  consistent st = true ->
  consistent (snd (registerResource name description st)) = true.
Proof.
  unfold consistent. simpl. rewrite !forallb_forall.
  intros C u Hu.
  rewrite (MapLaws.keys_set String.eqb) in Hu.
  assert (Hnew : JSMap.has String.eqb
                   (JSMap.set String.eqb (data st)
                      (resourcePrefix st ++ resourceId name) JSMap.empty)
                   (resourcePrefix st ++ resourceId name) = true).
  { unfold JSMap.has.
    now rewrite Facts.get_set_same by apply String.eqb_refl. }
  destruct (JSMap.has String.eqb (resources st)
              (resourcePrefix st ++ resourceId name)).
  - now apply has_set_mono, C.
  - apply in_app_or in Hu as [Hu|[<-|[]]]; [now apply has_set_mono, C | exact Hnew].
Qed.

(** After any of the writing operations the service is the one before, or
    the one before with the collection of [uri] replaced. *)
Lemma write_shape (env : Env) (uri id : string) (d : Object)
    (timestamp : string) (uuids : nat -> string) (records : list Object)
    (st : State) :
  let put st' := st' = st \/
                 exists rd, st' = setData (fun m => JSMap.set String.eqb m uri rd) st in
  put (snd (createRecord env uri d st))
  /\ put (snd (updateRecord env uri id d st))
  /\ put (snd (deleteRecord uri id st))
  /\ put (snd (seedData timestamp uuids uri records st)).
Proof.
  intros put. unfold put. repeat split; exec;
    destruct (JSMap.has String.eqb (resources st) uri); simpl; auto;
    destruct (JSMap.get String.eqb (data st) uri) as [rd|]; simpl; auto.
  - right. eauto.
  - destruct (JSMap.get strictEq rd (VStr id)); simpl; [right; eauto | auto].
  - destruct (JSMap.has strictEq rd (VStr id)); simpl; [right; eauto | auto].
  - right. eauto.
Qed.


(** X7.  A new service has a record collection for every registered URI (it
    has neither), and [registerResource], [createRecord], [updateRecord],
    [deleteRecord] and [seedData] keep it so, whether they succeed or
    fail. *)
Theorem consistent_preserved (st : State) :
  (forall prefix, consistent (create prefix) = true)
  /\ (consistent st = true ->
      (forall name description,
         consistent (snd (registerResource name description st)) = true)
      /\ (forall env uri d,
            consistent (snd (createRecord env uri d st)) = true)
      /\ (forall env uri id d,
            consistent (snd (updateRecord env uri id d st)) = true)
      /\ (forall uri id, consistent (snd (deleteRecord uri id st)) = true)
      /\ (forall timestamp uuids uri records,
            consistent (snd (seedData timestamp uuids uri records st)) = true)).
Proof.
  split; [reflexivity|]. intros C.
  split; [intros; now apply consistent_register|].
  split; [|split; [|split]].
  - intros env u d.
    destruct (write_shape env u "" d "" (fun _ => "") [] st)
      as ([->|[rd ->]] & _); [exact C | now apply consistent_put].
  - intros env u id d.
    destruct (write_shape env u id d "" (fun _ => "") [] st)
      as (_ & [->|[rd ->]] & _); [exact C | now apply consistent_put].
  - intros u id.
    destruct (write_shape Host.env0 u id [] "" (fun _ => "") [] st)
      as (_ & _ & [->|[rd ->]] & _); [exact C | now apply consistent_put].
  - intros timestamp uuids u records.
    destruct (write_shape Host.env0 u "" [] timestamp uuids records st)
      as (_ & _ & _ & [->|[rd ->]]); [exact C | now apply consistent_put].
Qed.

Lemma consistent_preserved_witness :
  consistent
    (snd (createRecord Host.env0 "mcp://users" [("firstName", VStr "Eve")]
            (snd (registerResource "Users" None (create "mcp://"))))) = true.
Proof.
  destruct (consistent_preserved (create "mcp://")) as (H0 & Hstep).
  destruct (Hstep (H0 "mcp://")) as (Hreg & _).
  destruct (consistent_preserved
              (snd (registerResource "Users" None (create "mcp://"))))
    as (_ & Hstep').
  destruct (Hstep' (Hreg "Users" None)) as (_ & Hcreate & _).
  apply Hcreate.
Defined.




Lemma createEach_registered (timestamp : string) (uuids : nat -> string)
    (uri : string) (records : list Object) :
  forall (n : nat) (st : State) (rd : Records),
    registered st uri rd ->
    createEach timestamp uuids n uri records st
    = (inr tt,
       setData (fun m => JSMap.set String.eqb m uri
                           (seedLoop timestamp uuids n records rd)) st).
Proof.
  induction records as [|record rest IH]; intros n st rd [Hr Hd]; simpl.
  - unfold ret. f_equal. symmetry. apply setData_same.
    now apply MapLaws.set_same.
  - unfold bind at 1.
    assert (E : createRecord {| now := timestamp; uuid := uuids n |} uri record st
                = (inr (stamped (recordId {| now := timestamp; uuid := uuids n |} record)
                          record timestamp),
                   setData (fun m => JSMap.set String.eqb m uri
                              (JSMap.set strictEq rd
                                 (recordId {| now := timestamp; uuid := uuids n |} record)
                                 (stamped (recordId {| now := timestamp; uuid := uuids n |} record)
                                    record timestamp))) st)).
    { exec. rewrite Hr. simpl. now rewrite Hd. }
    rewrite E. erewrite IH.
    + now rewrite setData_twice.
    + apply registered_after_put with (rd := rd). now split.
Qed.

(** X9.  On a registered resource [seedData] does what creating the records
    one after the other does, all at the same timestamp: the same records
    under the same ids in the same order, a later record replacing an
    earlier one with its id. *)
Theorem seedData_as_createRecords
    (timestamp : string) (uuids : nat -> string) (uri : string)
    (records : list Object) (st : State) (rd : Records) :
  registered st uri rd ->
  seedData timestamp uuids uri records st
  = createEach timestamp uuids 0 uri records st.
Proof.
  intros Hreg. rewrite (createEach_registered _ _ _ _ 0%nat st rd Hreg).
  destruct Hreg as [Hr Hd]. exec. rewrite Hr. simpl. now rewrite Hd.
Qed.

Lemma seedData_as_createRecords_witness :
  let st := snd (registerResource "Users" (Some "User management resource")
                   (create "mcp://")) in
  UserResource.seeded
  = snd (createEach (now Host.env0) (fun _ => uuid Host.env0) 0 "mcp://users"
           UserResource.SAMPLE_USERS st).
Proof.
  intros st.
  rewrite <- (seedData_as_createRecords (now Host.env0)
                (fun _ => uuid Host.env0) "mcp://users"
                UserResource.SAMPLE_USERS st JSMap.empty).
  - reflexivity.
  - split; reflexivity.
Defined.

Lemma lowerChar_idem (c : ascii) : lowerChar (lowerChar c) = lowerChar c.
Proof. destruct c as [[] [] [] [] [] [] [] []]; reflexivity. Qed.

Lemma lowerChar_alnum (c : ascii) : isLowerAlnum c = true -> lowerChar c = c.
Proof. destruct c as [[] [] [] [] [] [] [] []]; simpl; intros E; now try discriminate E. Qed.

Lemma toLowerCase_idem (s : string) : toLowerCase (toLowerCase s) = toLowerCase s.
Proof.
  induction s as [|c s IH]; simpl; [reflexivity|].
  now rewrite lowerChar_idem, IH.
Qed.

Lemma replaced_char (c : ascii) :
  let c' := if isLowerAlnum c then c else "-"%char in
  isIdChar c' = true
  /\ lowerChar c' = c'
  /\ (if isLowerAlnum c' then c' else "-"%char) = c'.
Proof.
  simpl. destruct (isLowerAlnum c) eqn:E.
  - unfold isIdChar. rewrite E. simpl. split; [reflexivity|].
    split; [now apply lowerChar_alnum | reflexivity].
  - repeat split; reflexivity.
Qed.

(** X10.  The identifier [registerResource] derives consists of lowercase
    letters, digits and ["-"] only; deriving an identifier from an identifier
    changes nothing; and names that differ only in the case of their letters
    get the same identifier, hence the same URI. *)
Theorem resourceId_normal_form (name : string) :
  allChars isIdChar (resourceId name) = true
  /\ resourceId (resourceId name) = resourceId name
  /\ resourceId (toLowerCase name) = resourceId name.
Proof.
  unfold resourceId. split; [|split].
  - induction (toLowerCase name) as [|c s IH]; simpl; [reflexivity|].
    destruct (replaced_char c) as (E & _). simpl in E. now rewrite E, IH.
  - induction (toLowerCase name) as [|c s IH]; simpl; [reflexivity|].
    destruct (replaced_char c) as (_ & E1 & E2). simpl in E1, E2.
    now rewrite E1, E2, IH.
  - now rewrite toLowerCase_idem.
Qed.

End StoreLaws.

(** ** The query pipeline, beyond the claims *)

Module QueryLaws.
Import JS QueryEngine.

Lemma filter_length_bound {A} (f : A -> bool) (l : list A) :
  (List.length (List.filter f l) <= List.length l)%nat.
Proof.
  induction l as [|x l IH]; simpl; [lia|].
  destruct (f x); simpl; lia.
Qed.

Lemma firstn_subset {A} (n : nat) (l : list A) (x : A) :
  In x (firstn n l) -> In x l.
Proof.
  revert l. induction n as [|n IH]; intros [|y l]; simpl; try contradiction.
  intros [->|Hin]; [now left | right; now apply IH].
Qed.

Lemma searchStage_bound (q : Query) (l : list Object) :
  (forall x, In x (searchStage q l) -> In x l)
  /\ (List.length (searchStage q l) <= List.length l)%nat.
Proof.
  unfold searchStage. destruct (searchTerm q) as [s|]; [|split; auto].
  destruct (truthy (VStr s)); [|split; auto].
  split; [intros x Hx; now apply filter_In in Hx | apply filter_length_bound].
Qed.

Lemma filterStage_bound (q : Query) (l : list Object) :
  (forall x, In x (filterStage q l) -> In x l)
  /\ (List.length (filterStage q l) <= List.length l)%nat.
Proof.
  unfold filterStage. destruct (filter q) as [f|]; [|split; auto].
  split; [intros x Hx; now apply filter_In in Hx | apply filter_length_bound].
Qed.

Lemma stages_without_limit `{Locale} (R : list Object) (q : Query) :
  execute R (withoutLimit q)
  = sortStage q (filterStage q (searchStage q R)).
Proof. reflexivity. Qed.

(** X11.  The pipeline only selects and rearranges: every record it returns
    is one of the records it was given, and it returns no more of them than
    it was given.  A positive [maxRecords] cuts the result of the other
    stages down to its first [maxRecords] records, so the limit applies
    after search, filter and sort; a [maxRecords] of zero or less limits
    nothing. *)
Theorem execute_selects_then_limits `{Locale} (R : list Object) (q : Query) :
  (forall x, In x (execute R q) -> In x R)
  /\ (List.length (execute R q) <= List.length R)%nat
  /\ (forall n, maxRecords q = Some n -> n > 0 ->
        execute R q = firstn (Z.to_nat n) (execute R (withoutLimit q))
        /\ List.length (execute R q)
           = Nat.min (Z.to_nat n) (List.length (execute R (withoutLimit q))))
  /\ (forall n, maxRecords q = Some n -> n <= 0 ->
        execute R q = execute R (withoutLimit q)).
Proof.
  assert (Hin : forall x, In x (execute R (withoutLimit q)) -> In x R).
  { intros x Hx. rewrite stages_without_limit in Hx.
    apply (Permutation_in _ (QueryProperties.sortStage_perm q _)) in Hx.
    apply filterStage_bound in Hx. now apply searchStage_bound in Hx. }
  assert (Hlen : (List.length (execute R (withoutLimit q)) <= List.length R)%nat).
  { rewrite stages_without_limit.
    rewrite (Permutation_length (QueryProperties.sortStage_perm q _)).
    etransitivity; [apply filterStage_bound | apply searchStage_bound]. }
  assert (Hlim : execute R q = limitStage q (execute R (withoutLimit q)))
    by reflexivity.
  split; [|split; [|split]].
  - intros x. rewrite Hlim. unfold limitStage.
    destruct (maxRecords q) as [n|]; [|apply Hin].
    destruct (n >? 0); [|apply Hin].
    intros Hx. now apply Hin, firstn_subset with (n := Z.to_nat n).
  - rewrite Hlim. unfold limitStage.
    destruct (maxRecords q) as [n|]; [|exact Hlen].
    destruct (n >? 0); [|exact Hlen].
    rewrite length_firstn. lia.
  - intros n Hn Hpos. rewrite Hlim at 1 2. unfold limitStage. rewrite Hn.
    destruct (Z.gtb_spec n 0); [|lia].
    split; [reflexivity | apply length_firstn].
  - intros n Hn Hneg. rewrite Hlim at 1. unfold limitStage. rewrite Hn.
    destruct (Z.gtb_spec n 0); [lia | reflexivity].
Qed.

Lemma execute_limit_witness :
  let q := {| searchTerm := None; fields := None; filter := None;
              sort := Some [ {| field := "firstName"; direction := None |} ];
              maxRecords := Some 2 |} in
  let R := JSMap.values UserResource.users in
  List.length (@execute Host.codeOrder R q) = 2%nat
  /\ @execute Host.codeOrder R
       {| searchTerm := None; fields := None; filter := None;
          sort := sort q; maxRecords := Some (-3) |}
     = @execute Host.codeOrder R (withoutLimit q).
Proof.
  intros q R. split.
  - destruct (@execute_selects_then_limits Host.codeOrder R q)
      as (_ & _ & Hpos & _).
    destruct (Hpos 2 eq_refl) as (_ & Hl); [lia|].
    rewrite Hl. reflexivity.
  - destruct (@execute_selects_then_limits Host.codeOrder R
                {| searchTerm := None; fields := None; filter := None;
                   sort := sort q; maxRecords := Some (-3) |})
      as (_ & _ & _ & Hneg).
    apply (Hneg (-3) eq_refl). lia.
Defined.

Lemma toLowerCase_empty (s : string) : toLowerCase s = "" -> s = "".
Proof. destruct s; simpl; [reflexivity | discriminate]. Qed.

Lemma truthy_lower (s s' : string) :
  toLowerCase s = toLowerCase s' -> truthy (VStr s) = truthy (VStr s').
Proof.
  intros E. simpl. destruct s as [|c s], s' as [|c' s']; simpl in *;
    try reflexivity; discriminate.
Qed.

(** X12.  The search does not look at the case of letters: two search terms
    with the same lowercase form select the same records, and so do a term
    and its lowercase form; a string value is matched on its lowercase form
    only.  An empty search term selects everything. *)
Theorem search_ignores_case (q q' : Query) (s s' : string) (R : list Object) :
  searchTerm q = Some s ->
  searchTerm q' = Some s' ->
  fields q = fields q' ->
  toLowerCase s = toLowerCase s' ->
  searchStage q R = searchStage q' R
  /\ (forall term v v', toLowerCase v = toLowerCase v' ->
        valueMatches term (VStr v) = valueMatches term (VStr v'))
  /\ (s = "" -> searchStage q R = R).
Proof.
  intros Hs Hs' Hf E. split; [|split].
  - unfold searchStage. rewrite Hs, Hs', Hf, E, (truthy_lower s s' E).
    reflexivity.
  - intros term v v' Ev. simpl. now rewrite Ev.
  - intros ->. unfold searchStage. now rewrite Hs.
Qed.

Lemma search_ignores_case_witness :
  let q t := {| searchTerm := Some t; fields := None; filter := None;
                sort := None; maxRecords := None |} in
  let R := JSMap.values UserResource.users in
  searchStage (q "SMITH") R = searchStage (q "smith") R
  /\ map (fun r => getProp r "id") (searchStage (q "SMITH") R)
     = [VStr "usr_002"].
Proof.
  intros q R.
  destruct (search_ignores_case (q "SMITH") (q "smith") "SMITH" "smith" R
              eq_refl eq_refl eq_refl eq_refl) as (E & _).
  split; [exact E | reflexivity].
Defined.

Lemma valueMatches_spec (term : string) (v : Value) :
  valueMatches term v = true <->
  isScalar v = true /\ includes (toLowerCase (toString v)) term = true.
Proof.
  destruct v; simpl; split; try (intros [? ?]; discriminate);
    try discriminate; try (intros Hm; now split); try (now intros [_ Hm]).
Qed.

Lemma fieldAllowed_none (fs : option (list string)) (k : string) :
  fieldAllowed fs k = true -> fieldAllowed None k = true.
Proof. reflexivity. Qed.

Lemma recordMatches_spec (term : string) (fs : option (list string))
    (r : Object) :
  recordMatches term fs r = true <->
  exists k v, In (k, v) r /\ fieldAllowed fs k = true /\ isScalar v = true
              /\ includes (toLowerCase (toString v)) term = true.
Proof.
  unfold recordMatches, entries. rewrite existsb_exists. split.
  - intros ([k v] & Hin & Hm). apply filter_In in Hin as [Hin Ha].
    apply valueMatches_spec in Hm as [Hs Hi]. now exists k, v.
  - intros (k & v & Hin & Ha & Hs & Hi). exists (k, v). split.
    + apply filter_In. now split.
    + apply valueMatches_spec. now split.
Qed.

(** X13.  Take a non-empty search term of ASCII characters and a record
    whose strings are ASCII and whose numbers are safe integers.  The record
    is selected exactly when one of its own properties, among the listed
    [fields] if there are any, holds a string, a number or a boolean whose
    text, in lowercase, contains the lowercase term: [null], arrays and
    objects never match, such a number matches on its decimal digits.
    For any term and record, listing [fields] can only narrow the
    selection. *)
Theorem search_selects_by_scalar_text (q : Query) (s : string)
    (R : list Object) (r : Object) :
  searchTerm q = Some s ->
  s <> "" ->
  (isAscii s = true -> searchable r = true ->
   (In r (searchStage q R) <->
    In r R /\
    exists k v, In (k, v) r /\ fieldAllowed (fields q) k = true
                /\ isScalar v = true
                /\ includes (toLowerCase (toString v)) (toLowerCase s) = true))
  /\ (forall q0, searchTerm q0 = Some s -> fields q0 = None ->
        In r (searchStage q R) -> In r (searchStage q0 R)).
Proof.
  intros Hs Hne.
  assert (Ht : truthy (VStr s) = true).
  { simpl. apply negb_true_iff, String.eqb_neq. exact Hne. }
  assert (Hiff : forall q1, searchTerm q1 = Some s ->
            (In r (searchStage q1 R) <->
             In r R /\ recordMatches (toLowerCase s) (fields q1) r = true)).
  { intros q1 H1. unfold searchStage. rewrite H1, Ht. apply filter_In. }
  split.
  - intros _ _. rewrite (Hiff q Hs). now rewrite recordMatches_spec.
  - intros q0 H0 F0. rewrite (Hiff q Hs), (Hiff q0 H0), F0.
    intros [Hin Hm]. split; [exact Hin|].
    apply recordMatches_spec in Hm as (k & v & Hk & _ & Hv).
    apply recordMatches_spec. now exists k, v.
Qed.

Lemma search_selects_witness :
  let q := {| searchTerm := Some "TRUE"; fields := Some ["isActive"];
              filter := None; sort := None; maxRecords := None |} in
  In (nth 1 (JSMap.values UserResource.users) [])
     (searchStage q (JSMap.values UserResource.users)).
Proof.
  intros q.
  destruct (search_selects_by_scalar_text q "TRUE"
              (JSMap.values UserResource.users)
              (nth 1 (JSMap.values UserResource.users) []) eq_refl)
    as (Hiff & _); [discriminate|].
  apply Hiff; [reflexivity | reflexivity |]. split.
  - right. left. reflexivity.
  - exists "isActive", (VBool true). repeat split.
    vm_compute. tauto.
Defined.

(** X14.  Take a filter object that names no property of
    [Object.prototype] and holds [undefined], [null], booleans, numbers and
    strings only.  A record is selected exactly when, for every property of
    the filter, the record's value under that name is the filter's value (a
    record without the property has the value [undefined]); there is no
    conversion, so the number 1 does not match the string "1". *)
Theorem filter_selects_exact_matches (q : Query) (f : Object)
    (R : list Object) (r : Object) :
  filter q = Some f ->
  plainFilter f = true ->
  (In r (filterStage q R) <->
   In r R /\ forall k v, In (k, v) f -> getProp r k = v).
Proof.
  intros Hf Hp. unfold filterStage. rewrite Hf.
  rewrite filter_In. unfold passesFilter, entries. rewrite forallb_forall.
  unfold plainFilter, entries in Hp. rewrite forallb_forall in Hp.
  split; intros [Hin Hall]; (split; [exact Hin|]).
  - intros k v Hkv. specialize (Hall (k, v) Hkv). simpl in Hall.
    now apply Facts.strictEq_eq.
  - intros [k v] Hkv. simpl. rewrite (Hall k v Hkv).
    specialize (Hp (k, v) Hkv). simpl in Hp.
    apply andb_true_iff in Hp as [_ Hv].
    destruct v; simpl; try discriminate Hv; try reflexivity.
    + apply Bool.eqb_reflx.
    + apply Z.eqb_refl.
    + apply String.eqb_refl.
Qed.

Lemma filter_selects_witness :
  let q := {| searchTerm := None; fields := None;
              filter := Some [("role", VStr "user"); ("isActive", VBool true)];
              sort := None; maxRecords := None |} in
  In (nth 3 (JSMap.values UserResource.users) [])
     (filterStage q (JSMap.values UserResource.users))
  /\ ~ In (nth 3 (JSMap.values UserResource.users) [])
         (filterStage
            {| searchTerm := None; fields := None;
               filter := Some [("isActive", VStr "true")];
               sort := None; maxRecords := None |}
            (JSMap.values UserResource.users)).
Proof.
  intros q. split.
  - destruct (filter_selects_exact_matches q
                [("role", VStr "user"); ("isActive", VBool true)]
                (JSMap.values UserResource.users)
                (nth 3 (JSMap.values UserResource.users) []) eq_refl eq_refl)
      as (_ & Hsel).
    apply Hsel. split.
    + do 3 right. left. reflexivity.
    + intros k v [E|[E|[]]]; inversion E; subst; reflexivity.
  - destruct (filter_selects_exact_matches
                {| searchTerm := None; fields := None;
                   filter := Some [("isActive", VStr "true")];
                   sort := None; maxRecords := None |}
                [("isActive", VStr "true")]
                (JSMap.values UserResource.users)
                (nth 3 (JSMap.values UserResource.users) []) eq_refl eq_refl)
      as (Hsel & _).
    intros Hin. destruct (Hsel Hin) as (_ & Hall).
    specialize (Hall "isActive" (VStr "true") (or_introl eq_refl)).
    vm_compute in Hall. discriminate Hall.
Defined.

End QueryLaws.

(** ** The dispatcher, beyond the claims *)

Module DispatchLaws.
Import JS Utils Args MCPServer.

(** The error [validateInput] throws for the issues zod reports. *)
Lemma validateInput_failure {S T} (schema : ZodType T) (a : Value)
    (issues : list ZodIssue) (s : S) :
  parse schema a = inl issues ->
  validateInput schema a s
  = (inl (Error ("Invalid input: " ++ join "; " (map formatIssue issues))), s).
Proof. unfold validateInput. now intros ->. Qed.

Lemma validateInput_success {S T} (schema : ZodType T) (a : Value) (x : T)
    (s : S) :
  parse schema a = inr x -> validateInput schema a s = (inr x, s).
Proof. unfold validateInput. now intros ->. Qed.

Lemma safeExecute_cases {S} (n : string) (fn : M S Value) (s : S) :
  safeExecute n fn s =
    match fn s with
    | (inr v, s') => (inr (formatToolResponse v false), s')
    | (inl e, s') =>
        if throwsOnString e then (inl typeError, s')
        else (inr (formatErrorResponse n e), s')
    end.
Proof.
  unfold safeExecute, tryCatch, callFormatErrorResponse, bind, ret, throw.
  destruct (fn s) as [[e|v] s']; [now destruct (throwsOnString e) | reflexivity].
Qed.

(** The only exception that leaves [safeExecute] is the [TypeError] of
    [String(error)] in its [catch] block. *)
Lemma safeExecute_throws {S} (n : string) (fn : M S Value) (s s' : S) (e : Exn) :
  safeExecute n fn s = (inl e, s') -> e = typeError.
Proof.
  rewrite safeExecute_cases. destruct (fn s) as [[e0|v] s0]; [|discriminate].
  destruct (throwsOnString e0); [|discriminate].
  intros E. now inversion E.
Qed.

Lemma safeExecute_returns {S} (n : string) (fn : M S Value) (s : S) :
  (forall e s', fn s = (inl e, s') -> throwsOnString e = false) ->
  exists result s', safeExecute n fn s = (inr result, s').
Proof.
  intros Hf. rewrite safeExecute_cases.
  destruct (fn s) as [[e|v] s'] eqn:E; [|eauto].
  rewrite (Hf e s' eq_refl). eauto.
Qed.

Lemma printableExn_returns (e : Exn) :
  printableExn e = true -> throwsOnString e = false.
Proof.
  destruct e as [m|v]; simpl; [reflexivity|].
  apply QueryProperties.printable_returns.
Qed.

(** A [catch] block that formats the error it caught returns when the
    [try] block throws [TypeError]s only. *)
Lemma tryCatch_format_returns {S} (n : string) (body : M S CallToolResult)
    (s : S) :
  (forall e s', body s = (inl e, s') -> e = typeError) ->
  exists result s',
    tryCatch body (fun error => callFormatErrorResponse n error) s
    = (inr result, s').
Proof.
  intros Hb. unfold tryCatch. destruct (body s) as [[e|a] s'] eqn:E; [|eauto].
  rewrite (Hb e s' eq_refl). unfold callFormatErrorResponse. simpl.
  unfold ret. eauto.
Qed.

Section AnyService.
Context {S : Type} `{IDataService S} `{ArgsSchemas}.

Lemma builtinCallTool_returns env request (s : S) :
  exists result s', builtinCallTool env request s = (inr result, s').
Proof.
  unfold builtinCallTool. apply tryCatch_format_returns. intros e s'.
  repeat (match goal with
          | |- context [if ?b then _ else _] => destruct b
          end; [apply safeExecute_throws|]).
  unfold ret. discriminate.
Qed.

(** X15.  Whatever the schemas and the data service do, and whatever the
    request is, [handleCallTool] as the class defines it returns a result:
    the [TypeError] that can leave [safeExecute] is caught by the method's
    own [catch] block.  After registrations, [handleCallTool] returns a
    result as long as no handler throws a value on which [String] throws;
    the wrapper of [registerTool] has no [catch] block of its own, and the
    one exception that can leave [handleCallTool] is that [TypeError]. *)
Theorem handleCallTool_throws_typeError_only
    (rs : list (Registration S)) env request (s : S) :
  (exists result s', handleCallTool create env request s = (inr result, s'))
  /\ ((forall r x e s0 s',
         In r rs -> reg_handler r env x s0 = (inl e, s') ->
         throwsOnString e = false) ->
      exists result s',
        handleCallTool (registerAll create rs) env request s = (inr result, s'))
  /\ (forall e s',
        handleCallTool (registerAll create rs) env request s = (inl e, s') ->
        e = typeError).
Proof.
  split; [apply builtinCallTool_returns|]. split.
  - intros Hh. rewrite ServerProperties.handleCallTool_registerAll.
    destruct (find _ _) as [r|] eqn:F; [|apply builtinCallTool_returns].
    apply find_some in F as [Hin _]. apply in_rev in Hin.
    apply safeExecute_returns. intros e s'. unfold bind, validateInput.
    destruct (parse (reg_schema r) (arguments request)) as [issues|x].
    + unfold throw. intros E. now inversion E.
    + unfold ret. intros E. now apply (Hh r x e s s').
  - intros e s'. rewrite ServerProperties.handleCallTool_registerAll.
    destruct (find _ _) as [r|].
    + apply safeExecute_throws.
    + destruct (builtinCallTool_returns env request s) as (result & s0 & E).
      intros E'. pose proof (eq_trans (eq_sym E) E') as N. discriminate N.
Qed.

(** X16.  What a call of a registered tool comes to.  If the arguments fail
    the tool's schema, the handler is not run, the data service is left
    alone and the result is the error envelope for "Invalid input: ..."
    with every issue.  If the handler throws an [Error], or a value that
    [String] converts to the modelled text, the result is the error
    envelope naming the tool, and what the handler had done to the data
    service before it threw stays done.  If the handler throws a value on
    which [String] throws, no envelope is made: the call throws that
    [TypeError].  If the handler returns, the result is the success
    envelope of its value. *)
Theorem registered_tool_outcomes
    (srv : MCPServer.t S) (n description : string) (schema : ZodType Value)
    (handler : ToolHandler) env (a : Value) (s : S) :
  let call := handleCallTool (registerTool srv n description schema handler)
                env {| toolName := n; arguments := a |} s in
  (forall issues, parse schema a = inl issues ->
     call = (inr (formatErrorResponse n
                    (Error ("Invalid input: "
                            ++ join "; " (map formatIssue issues)))), s))
  /\ (forall x e s', parse schema a = inr x -> handler env x s = (inl e, s') ->
        printableExn e = true ->
        call = (inr (formatErrorResponse n e), s')
        /\ isError (formatErrorResponse n e) = true)
  /\ (forall x e s', parse schema a = inr x -> handler env x s = (inl e, s') ->
        throwsOnString e = true ->
        call = (inl typeError, s'))
  /\ (forall x v s', parse schema a = inr x -> handler env x s = (inr v, s') ->
        call = (inr (formatToolResponse v false), s')).
Proof.
  intros call. unfold call, registerTool. simpl. rewrite String.eqb_refl.
  rewrite safeExecute_cases. unfold bind.
  split; [|split; [|split]].
  - intros issues P. now rewrite (validateInput_failure _ _ _ _ P).
  - intros x e s' P Hh Hp.
    rewrite (validateInput_success _ _ _ _ P), Hh, (printableExn_returns e Hp).
    now split.
  - intros x e s' P Hh Ht.
    now rewrite (validateInput_success _ _ _ _ P), Hh, Ht.
  - intros x v s' P Hh. now rewrite (validateInput_success _ _ _ _ P), Hh.
Qed.

(** X17.  Each built-in tool checks its arguments against its schema before
    it touches the data service: when the schema rejects them, the result is
    the error envelope of the tool with the issues, and the data service is
    as it was. *)
Theorem builtin_tools_validate_first env (a : Value) (s : S) :
  let call n := handleCallTool create env {| toolName := n; arguments := a |} s in
  (forall issues, parse ListRecordsArgsSchema a = inl issues ->
     call "list_records"
     = (inr (formatErrorResponse "list_records" (invalidInput issues)), s))
  /\ (forall issues, parse SearchRecordsArgsSchema a = inl issues ->
        call "search_records"
        = (inr (formatErrorResponse "search_records" (invalidInput issues)), s))
  /\ (forall issues, parse GetRecordArgsSchema a = inl issues ->
        call "get_record"
        = (inr (formatErrorResponse "get_record" (invalidInput issues)), s))
  /\ (forall issues, parse CreateRecordArgsSchema a = inl issues ->
        call "create_record"
        = (inr (formatErrorResponse "create_record" (invalidInput issues)), s))
  /\ (forall issues, parse UpdateRecordArgsSchema a = inl issues ->
        call "update_record"
        = (inr (formatErrorResponse "update_record" (invalidInput issues)), s))
  /\ (forall issues, parse DeleteRecordArgsSchema a = inl issues ->
        call "delete_record"
        = (inr (formatErrorResponse "delete_record" (invalidInput issues)), s)).
Proof.
  intros call. unfold call, invalidInput. simpl.
  repeat split; intros issues P;
    unfold builtinCallTool, tryCatch; simpl;
    rewrite safeExecute_cases; unfold bind;
    now rewrite (validateInput_failure _ _ _ _ P).
Qed.

Lemma builtinListTools_names (tools : list Tool) :
  builtinListTools = inr tools -> map tool_name tools = Spec.builtinNames.
Proof.
  unfold builtinListTools, describe.
  repeat (match goal with
          | |- context [getInputSchema ?x] => destruct (getInputSchema x)
          end; [discriminate|]).
  intros E. inversion E. reflexivity.
Qed.

Lemma handleListTools_stays_broken (rs : list (Registration S)) :
  forall (srv : MCPServer.t S) e,
    handleListTools srv = inl e ->
    handleListTools (registerAll srv rs) = inl e.
Proof.
  unfold registerAll.
  induction rs as [|r rs IH]; intros srv e Hs; simpl; [exact Hs|].
  apply IH. unfold register, registerTool. simpl. now rewrite Hs.
Qed.

Lemma register_breaks_listing (srv : MCPServer.t S) (r : Registration S)
    (e : Exn) (tools : list Tool) :
  handleListTools srv = inr tools ->
  getInputSchema (reg_schema r) = inl e ->
  handleListTools (register srv r) = inl e.
Proof.
  intros Hs He. unfold register, registerTool. simpl. now rewrite Hs, He.
Qed.

(** X18.  When the schemas of the built-in tools and of the registered tools
    all convert to object schemas, the tool listing names the six built-in
    tools first and then every registration in the order it was made, once
    per call of [registerTool]: a name registered twice, or the name of a
    built-in tool registered again, is listed twice, although a call reaches
    the latest registration only. *)
Theorem handleListTools_names (rs : list (Registration S)) (tools0 : list Tool) :
  builtinListTools = inr tools0 ->
  (forall r, In r rs -> exists js, getInputSchema (reg_schema r) = inr js) ->
  exists tools,
    handleListTools (registerAll create rs) = inr tools
    /\ map tool_name tools = (Spec.builtinNames ++ map reg_name rs)%list
    /\ List.length tools = (6 + List.length rs)%nat.
Proof.
  intros Hb Hok. exists (tools0 ++ map listed rs)%list.
  assert (E : handleListTools (registerAll create rs)
              = inr (tools0 ++ map listed rs)%list)
    by (apply ServerProperties.handleListTools_registerAll; assumption).
  assert (N : map tool_name (tools0 ++ map listed rs)%list
              = (Spec.builtinNames ++ map reg_name rs)%list).
  { rewrite map_app, (builtinListTools_names tools0 Hb), map_map.
    reflexivity. }
  split; [exact E|]. split; [exact N|].
  rewrite <- (length_map tool_name), N, length_app, length_map. reflexivity.
Qed.

(** X19.  [registerTool] accepts a schema that does not convert to an object
    schema; from then on every tool listing fails with the conversion error,
    whatever is registered afterwards, while calls are still dispatched. *)
Theorem handleListTools_broken_by_schema
    (before after : list (Registration S)) (r : Registration S) (e : Exn)
    (tools : list Tool) :
  handleListTools (registerAll create before) = inr tools ->
  getInputSchema (reg_schema r) = inl e ->
  handleListTools (registerAll create (before ++ r :: after)%list) = inl e
  /\ (forall env request s,
        reg_name r = toolName request ->
        (forall r', In r' after -> reg_name r' <> toolName request) ->
        handleCallTool (registerAll create (before ++ r :: after)%list)
          env request s
        = Spec.runRegistered r env request s).
Proof.
  intros Hb He. split.
  - unfold registerAll. rewrite fold_left_app. simpl.
    apply handleListTools_stays_broken.
    now apply register_breaks_listing with (tools := tools).
  - intros env request s Hn Hno.
    rewrite ServerProperties.handleCallTool_registerAll.
    rewrite rev_app_distr. simpl. rewrite <- app_assoc. simpl.
    rewrite ServerProperties.find_app_skip.
    + simpl. unfold Spec.named. now rewrite Hn, String.eqb_refl.
    + intros r' Hr'. apply in_rev in Hr'. unfold Spec.named.
      apply String.eqb_neq. now apply Hno.
Qed.

(** X20.  [handleListResources] never throws: when the data service fails it
    answers the empty list, otherwise the URI and the name of every resource
    the service lists, each with the MIME type "application/json".
    [handleReadResource] answers one content entry holding the resource as
    JSON; whatever the data service's failure is, it throws "Resource not
    found: <uri>" in its place. *)
Theorem resource_handlers_wrap_the_service (u : string) (s : S) :
  (exists entries s', handleListResources s = (inr entries, s'))
  /\ (forall e s', listResources s = (inl e, s') ->
        handleListResources s = (inr [], s'))
  /\ (forall rs s', listResources s = (inr rs, s') ->
        handleListResources s
        = (inr (map (fun r => {| re_uri := uri r;
                                 re_mimeType := "application/json";
                                 re_name := name r |}) rs), s'))
  /\ (forall e s', getResource u s = (inl e, s') ->
        handleReadResource u s
        = (inl (Error ("Resource not found: " ++ u)), s'))
  /\ (forall r s', getResource u s = (inr r, s') ->
        handleReadResource u s
        = (inr [ {| rc_uri := u; rc_mimeType := "application/json";
                    rc_text := stringify (resourceValue r) |} ], s')).
Proof.
  unfold handleListResources, handleReadResource, tryCatch, bind, ret, throw.
  repeat split.
  - destruct (listResources s) as [[e|rs] s']; eauto.
  - intros e s' E. now rewrite E.
  - intros rs s' E. now rewrite E.
  - intros e s' E. now rewrite E.
  - intros r s' E. now rewrite E.
Qed.
End AnyService.

Lemma handleCallTool_returns_witness :
  exists result s',
    handleCallTool (ExampleServer.registerAll [ExampleServer.list_records_again])
      Host.env1 ExampleServer.listUsers UserResource.seeded
    = (inr result, s').
Proof.
  destruct (@handleCallTool_throws_typeError_only _ ExampleServer.service
              Zod.schemas [ExampleServer.list_records_again] Host.env1
              ExampleServer.listUsers UserResource.seeded) as (_ & Hret & _).
  apply Hret. intros r x e s0 s' [<-|[]] E. discriminate E.
Defined.

Lemma registered_tool_outcomes_witness :
  handleCallTool (ExampleServer.registerAll [ExampleServer.activate_user])
    Host.env1
    {| toolName := "activate_user";
       arguments := VObj [("resourceUri", VStr "mcp://users");
                          ("userId", VStr "usr_404")] |}
    UserResource.seeded
  = (inr (formatErrorResponse "activate_user"
            (Error "Record not found: usr_404")), UserResource.seeded)
  /\ handleCallTool (ExampleServer.registerAll [ExampleServer.activate_user])
       Host.env1
       {| toolName := "activate_user"; arguments := VStr "usr_003" |}
       UserResource.seeded
     = (inr (formatErrorResponse "activate_user"
               (Error "Invalid input: : Expected object, received string")),
        UserResource.seeded)
  /\ handleCallTool (ExampleServer.registerAll [ExampleServer.rethrow])
       Host.env1
       {| toolName := "rethrow";
          arguments := VObj [("toString", VNum 1)] |}
       UserResource.seeded
     = (inl typeError, UserResource.seeded).
Proof.
  split; [|split].
  - destruct (@registered_tool_outcomes _
                ExampleServer.server "activate_user" "Activate a user account"
                ExampleServer.userArgs
                (reg_handler ExampleServer.activate_user) Host.env1
                (VObj [("resourceUri", VStr "mcp://users");
                       ("userId", VStr "usr_404")])
                UserResource.seeded) as (_ & Hthrow & _).
    apply (Hthrow (VObj [("resourceUri", VStr "mcp://users");
                         ("userId", VStr "usr_404")])
             (Error "Record not found: usr_404") UserResource.seeded);
      reflexivity.
  - destruct (@registered_tool_outcomes _
                ExampleServer.server "activate_user" "Activate a user account"
                ExampleServer.userArgs
                (reg_handler ExampleServer.activate_user) Host.env1
                (VStr "usr_003") UserResource.seeded) as (Hinvalid & _).
    apply (Hinvalid [ {| path := []; message := "Expected object, received string" |} ]).
    reflexivity.
  - destruct (@registered_tool_outcomes _
                ExampleServer.server "rethrow" "Throw the arguments"
                Zod.anyObject
                (reg_handler ExampleServer.rethrow) Host.env1
                (VObj [("toString", VNum 1)])
                UserResource.seeded) as (_ & _ & Hescape & _).
    apply (Hescape (VObj [("toString", VNum 1)])
             (Thrown (VObj [("toString", VNum 1)])) UserResource.seeded);
      reflexivity.
Defined.

Lemma builtin_tools_validate_first_witness :
  handleCallTool ExampleServer.server Host.env1
    {| toolName := "create_record";
       arguments := VObj [("data", VObj [("firstName", VStr "Eve")])] |}
    UserResource.seeded
  = (inr (formatErrorResponse "create_record"
            (Error "Invalid input: resourceUri: Required")),
     UserResource.seeded).
Proof.
  destruct (@builtin_tools_validate_first _ ExampleServer.service Zod.schemas
              Host.env1 (VObj [("data", VObj [("firstName", VStr "Eve")])])
              UserResource.seeded) as (_ & _ & _ & Hcreate & _).
  apply (Hcreate [ {| path := ["resourceUri"]; message := "Required" |} ]).
  reflexivity.
Defined.

Lemma handleListTools_names_witness :
  exists tools,
    handleListTools
      (ExampleServer.registerAll
         [ExampleServer.list_records_again; ExampleServer.activate_user])
    = inr tools
    /\ map tool_name tools
       = ["list_records"; "search_records"; "get_record"; "create_record";
          "update_record"; "delete_record"; "list_records"; "activate_user"].
Proof.
  destruct (@builtinListTools Zod.schemas)
    as [e|tools0] eqn:Hb; [discriminate Hb|].
  destruct (@handleListTools_names _ ExampleServer.service Zod.schemas
              [ExampleServer.list_records_again; ExampleServer.activate_user]
              tools0 Hb) as (tools & E & N & _).
  - intros r [<-|[<-|[]]]; eexists; reflexivity.
  - exists tools. split; [exact E | exact N].
Defined.

Lemma handleListTools_broken_witness :
  exists e,
    handleListTools
      (ExampleServer.registerAll
         [ExampleServer.activate_user; ExampleServer.activate_users;
          ExampleServer.list_records_again])
    = inl e
    /\ e = Error "Invalid input schema to convert: expected an object but got array".
Proof.
  destruct (handleListTools
              (@registerAll _ (@create _ ExampleServer.service Zod.schemas)
                 [ExampleServer.activate_user]))
    as [e0|tools] eqn:Hb; [discriminate Hb|].
  destruct (@handleListTools_broken_by_schema _ ExampleServer.service
              Zod.schemas [ExampleServer.activate_user]
              [ExampleServer.list_records_again] ExampleServer.activate_users
              (Error "Invalid input schema to convert: expected an object but got array")
              tools Hb eq_refl) as (E & _).
  eexists. split; [exact E | reflexivity].
Defined.

Lemma resource_handlers_witness :
  @handleReadResource _ ExampleServer.service "mcp://books" UserResource.seeded
  = (inl (Error "Resource not found: mcp://books"), UserResource.seeded)
  /\ @handleListResources _ ExampleServer.service UserResource.seeded
     = (inr [ {| re_uri := "mcp://users"; re_mimeType := "application/json";
                 re_name := "Users" |} ], UserResource.seeded).
Proof.
  destruct (@resource_handlers_wrap_the_service _ ExampleServer.service
              "mcp://books" UserResource.seeded)
    as (_ & _ & Hlist & Hfail & _).
  split.
  - apply (Hfail (Error "Resource not found: mcp://books")). reflexivity.
  - apply (Hlist [UserResource.USER_RESOURCE]). reflexivity.
Defined.

Lemma append_empty_r (s : string) : s ++ "" = s.
Proof. induction s as [|c s IH]; simpl; [reflexivity | now rewrite IH]. Qed.

(** *** Over the in-memory service *)

Section InMemory.
Context `{Locale} `{ArgsSchemas}.

#[local] Existing Instance InMemoryDataService.dataService.

(** X21.  The built-in [get_record] looks up the resource only: for a
    registered URI it answers the requested id and the name of the
    resource, whether or not the collection holds a record with that id,
    and nothing of any record; the data service is not changed. *)
Theorem get_record_answers_without_the_record
    env (a : Value) (u id : string) (st : InMemoryDataService.State) (r : Resource) :
  parse GetRecordArgsSchema a
  = inr {| gr_resourceUri := u; gr_recordId := id |} ->
  JSMap.get String.eqb (InMemoryDataService.resources st) u = Some r ->
  handleCallTool create env {| toolName := "get_record"; arguments := a |} st
  = (inr (formatToolResponse
            (VObj [("id", VStr id); ("resource", VStr (name r))]) false), st).
Proof.
  intros P G. simpl. unfold builtinCallTool, tryCatch. simpl.
  rewrite safeExecute_cases. unfold bind.
  rewrite (validateInput_success _ _ _ _ P). simpl.
  unfold InMemoryDataService.getResource, bind, gets, ret. now rewrite G.
Qed.

(** X22.  The built-in [delete_record] on a registered resource: for an id
    the collection holds, the answer is the success envelope of
    [{success: true, id}] and the record is gone from the collection; for
    any other id the answer is the error envelope "Error in tool
    delete_record: Record not found: <id>" and the service is unchanged. *)
Theorem delete_record_tool
    env (a : Value) (u id : string) (st : InMemoryDataService.State)
    (rd : InMemoryDataService.Records) :
  parse DeleteRecordArgsSchema a
  = inr {| dr_resourceUri := u; dr_recordId := id |} ->
  InMemoryDataService.registered st u rd ->
  let call := handleCallTool create env
                {| toolName := "delete_record"; arguments := a |} st in
  (forall r, JSMap.get strictEq rd (VStr id) = Some r ->
     fst call = inr (formatToolResponse
                       (VObj [("success", VBool true); ("id", VStr id)]) false)
     /\ InMemoryDataService.registered (snd call) u
          (JSMap.remove strictEq rd (VStr id)))
  /\ (JSMap.get strictEq rd (VStr id) = None ->
      call = (inr (formatErrorResponse "delete_record"
                     (Error ("Record not found: " ++ id))), st)).
Proof.
  intros P [Hr Hd] call.
  assert (E : call =
    match InMemoryDataService.deleteRecord u id st with
    | (inr b, s') =>
        (inr (formatToolResponse
                (VObj [("success", VBool b); ("id", VStr id)]) false), s')
    | (inl e, s') =>
        if throwsOnString e
        then (inr (formatErrorResponse "delete_record" typeError), s')
        else (inr (formatErrorResponse "delete_record" e), s')
    end).
  { unfold call. simpl. unfold builtinCallTool, tryCatch. simpl.
    rewrite safeExecute_cases. unfold bind.
    rewrite (validateInput_success _ _ _ _ P). simpl.
    destruct (InMemoryDataService.deleteRecord u id st) as [[e|b] s'];
      [now destruct (throwsOnString e) | reflexivity]. }
  rewrite E. clear E call.
  unfold InMemoryDataService.deleteRecord, InMemoryDataService.validateResource,
    InMemoryDataService.resourceData, InMemoryDataService.putResourceData,
    bind, gets, ret, throw, modify.
  rewrite Hr. cbn [negb]. cbv beta iota. rewrite Hd. cbv beta iota.
  unfold JSMap.delete, JSMap.has. split.
  - intros r G. rewrite G. cbn [negb]. cbv beta iota. simpl fst. simpl snd.
    split; [reflexivity|].
    apply StoreLaws.registered_after_put with (rd := rd). now split.
  - intros G. now rewrite G.
Qed.

(** X23.  The built-in tools [list_records], [search_records] and
    [get_record] never change the data service, whatever their arguments
    are and whether they succeed or fail. *)
Theorem reading_tools_leave_the_store env (a : Value) (st : InMemoryDataService.State) :
  snd (handleCallTool create env
         {| toolName := "list_records"; arguments := a |} st) = st
  /\ snd (handleCallTool create env
            {| toolName := "search_records"; arguments := a |} st) = st
  /\ snd (handleCallTool create env
            {| toolName := "get_record"; arguments := a |} st) = st.
Proof.
  assert (Q : forall u q, snd (InMemoryDataService.queryResource u q st) = st).
  { intros u q. InMemoryDataService.exec.
    destruct (JSMap.has String.eqb (InMemoryDataService.resources st) u);
      simpl; [|reflexivity].
    now destruct (JSMap.get String.eqb (InMemoryDataService.data st) u). }
  assert (G : forall u, snd (InMemoryDataService.getResource u st) = st).
  { intros u. InMemoryDataService.exec.
    now destruct (JSMap.get String.eqb (InMemoryDataService.resources st) u). }
  repeat split; simpl; unfold builtinCallTool, tryCatch; simpl;
    rewrite safeExecute_cases; unfold bind, validateInput.
  - destruct (parse ListRecordsArgsSchema a) as [issues|args]; simpl;
      [reflexivity|].
    match goal with |- context [InMemoryDataService.queryResource ?u ?q st] =>
      specialize (Q u q);
      destruct (InMemoryDataService.queryResource u q st) as [[e|v] s']
    end; [destruct (throwsOnString e)|]; exact Q.
  - destruct (parse SearchRecordsArgsSchema a) as [issues|args]; simpl;
      [reflexivity|].
    match goal with |- context [InMemoryDataService.queryResource ?u ?q st] =>
      specialize (Q u q);
      destruct (InMemoryDataService.queryResource u q st) as [[e|v] s']
    end; [destruct (throwsOnString e)|]; exact Q.
  - destruct (parse GetRecordArgsSchema a) as [issues|args]; simpl;
      [reflexivity|].
    specialize (G (gr_resourceUri args)).
    destruct (InMemoryDataService.getResource (gr_resourceUri args) st)
      as [[e|v] s']; [destruct (throwsOnString e)|]; exact G.
Qed.

(** X24.  Registering a resource and reading it back through the server:
    [handleReadResource] on the derived URI answers one content entry with
    that URI and the JSON text of the resource ([uri], [name] and, if there
    is one, [description]), and [handleListResources] lists the resources of
    the service in registration order, the new one among them. *)
Theorem registered_resource_is_readable
    (n : string) (description : option string) (st : InMemoryDataService.State) :
  let r := {| uri := InMemoryDataService.resourcePrefix st
                     ++ InMemoryDataService.resourceId n;
              name := n; description := description |} in
  let st' := snd (InMemoryDataService.registerResource n description st) in
  handleReadResource (uri r) st'
  = (inr [ {| rc_uri := uri r; rc_mimeType := "application/json";
              rc_text :=
                Some ("{" ++ (quote "uri" ++ ":" ++ quote (uri r) ++ ","
                              ++ quote "name" ++ ":" ++ quote n
                              ++ match description with
                                 | Some d =>
                                     "," ++ quote "description" ++ ":" ++ quote d
                                 | None => ""
                                 end) ++ "}") |} ], st')
  /\ (exists entries,
        handleListResources st' = (inr entries, st')
        /\ map re_uri entries
           = map uri (JSMap.values (InMemoryDataService.resources st'))
        /\ In {| re_uri := uri r; re_mimeType := "application/json";
                 re_name := n |} entries).
Proof.
  intros r st'.
  assert (Hres : JSMap.get String.eqb (InMemoryDataService.resources st') (uri r)
                 = Some r)
    by (simpl; apply Facts.get_set_same, String.eqb_refl).
  assert (Hget : InMemoryDataService.getResource (uri r) st' = (inr r, st')).
  { clearbody st' r.
    unfold InMemoryDataService.getResource, bind, gets, ret. now rewrite Hres. }
  split.
  - unfold handleReadResource, tryCatch, bind.
    change (@getResource _ InMemoryDataService.dataService (uri r) st')
      with (InMemoryDataService.getResource (uri r) st').
    rewrite Hget. unfold ret. f_equal. f_equal.
    unfold formatResourceContent, resourceValue, r. simpl.
    destruct description as [d|]; simpl; rewrite ?append_empty_r; reflexivity.
  - exists (map (fun x => {| re_uri := uri x; re_mimeType := "application/json";
                             re_name := name x |})
              (JSMap.values (InMemoryDataService.resources st'))).
    split; [reflexivity|]. split; [now rewrite map_map|].
    apply in_map_iff. exists r. split; [reflexivity|].
    clearbody st' r. clear Hget. unfold JSMap.values.
    revert Hres. generalize (InMemoryDataService.resources st').
    intros m. induction m as [|[k v] m IH]; simpl; [discriminate|].
    destruct (String.eqb k (uri r)); [intros E; inversion E; now left|].
    intros G. right. now apply IH.
Qed.
End InMemory.

Lemma get_record_witness :
  handleCallTool ExampleServer.server Host.env1
    {| toolName := "get_record";
       arguments := VObj [("resourceUri", VStr "mcp://users");
                          ("recordId", VStr "no_such_user")] |}
    UserResource.seeded
  = (inr (formatToolResponse
            (VObj [("id", VStr "no_such_user"); ("resource", VStr "Users")])
            false), UserResource.seeded).
Proof.
  apply (@get_record_answers_without_the_record Host.codeOrder Zod.schemas
           Host.env1 _ "mcp://users" "no_such_user" UserResource.seeded
           UserResource.USER_RESOURCE); reflexivity.
Defined.

Lemma delete_record_tool_witness :
  fst (handleCallTool ExampleServer.server Host.env1
         {| toolName := "delete_record";
            arguments := VObj [("resourceUri", VStr "mcp://users");
                               ("recordId", VStr "usr_004")] |}
         UserResource.seeded)
  = inr (formatToolResponse
           (VObj [("success", VBool true); ("id", VStr "usr_004")]) false)
  /\ handleCallTool ExampleServer.server Host.env1
       {| toolName := "delete_record";
          arguments := VObj [("resourceUri", VStr "mcp://users");
                             ("recordId", VStr "usr_400")] |}
       UserResource.seeded
     = (inr (formatErrorResponse "delete_record"
               (Error "Record not found: usr_400")), UserResource.seeded).
Proof.
  split.
  - destruct (@delete_record_tool Host.codeOrder Zod.schemas Host.env1
                (VObj [("resourceUri", VStr "mcp://users");
                       ("recordId", VStr "usr_004")])
                "mcp://users" "usr_004" UserResource.seeded UserResource.users
                eq_refl) as (Hpresent & _).
    + split; reflexivity.
    + destruct (Hpresent (nth 3 (JSMap.values UserResource.users) []) eq_refl)
        as (E & _).
      exact E.
  - destruct (@delete_record_tool Host.codeOrder Zod.schemas Host.env1
                (VObj [("resourceUri", VStr "mcp://users");
                       ("recordId", VStr "usr_400")])
                "mcp://users" "usr_400" UserResource.seeded UserResource.users
                eq_refl) as (_ & Habsent).
    + split; reflexivity.
    + apply Habsent. reflexivity.
Defined.

End DispatchLaws.
